(** * Swift-to-C++ file audit scripts: [compare_files.py] and [find_missing.py]

    A shallow embedding of the two scripts and of the parts of the Python
    library they call ([str], [re.sub], [os.path], [os.walk]), followed by
    the properties of their name transform, comparison and report.

    Strings are lists of characters.  A character is an 8-bit [ascii],
    read as the code point of the same number (U+0000 to U+00FF). *)

From Stdlib Require Import String Ascii List Bool Arith Lia ZArith.
From Stdlib Require Import DecimalString.
Import ListNotations.

Local Open Scope list_scope.

(** ** Python strings *)

Definition str := list ascii.

(** A string literal of the source. *)
Definition lit (s : string) : str := list_ascii_of_string s.

Definition code (c : ascii) : nat := nat_of_ascii c.

Definition in_range (lo hi : nat) (c : ascii) : bool :=
  (lo <=? code c) && (code c <=? hi).

(** The character classes of the two patterns: [[A-Z]], [[a-z]],
    [[a-z0-9]] and [.] (without DOTALL: anything but a line feed). *)
Definition is_upper (c : ascii) : bool := in_range 65 90 c.
Definition is_lower (c : ascii) : bool := in_range 97 122 c.
Definition is_digit (c : ascii) : bool := in_range 48 57 c.
Definition is_lower_or_digit (c : ascii) : bool := is_lower c || is_digit c.
Definition is_dot_char (c : ascii) : bool := negb (code c =? 10).

(** [str.lower] on one character: A-Z, and in the Latin-1 block the
    capitals U+00C0..U+00DE except the multiplication sign U+00D7.  Below
    U+0100 lowercasing goes character by character and keeps the length;
    beyond, where it need not, is outside this model. *)
Definition lower_char (c : ascii) : ascii :=
  if is_upper c || (in_range 192 222 c && negb (code c =? 215))
  then ascii_of_nat (code c + 32)
  else c.

Definition lower (s : str) : str := map lower_char s.

Definition eqc (a b : ascii) : bool := Ascii.eqb a b.

(** [s.startswith(p)] *)
Fixpoint startswith (p s : str) : bool :=
  match p, s with
  | [], _ => true
  | _ :: _, [] => false
  | a :: p', b :: s' => eqc a b && startswith p' s'
  end.

(** [s.endswith(p)] *)
Definition endswith (p s : str) : bool := startswith (rev p) (rev s).

(** [needle in hay] for two strings. *)
Fixpoint contains (needle hay : str) : bool :=
  startswith needle hay ||
  match hay with
  | [] => false
  | _ :: t => contains needle t
  end.

(** [s.split(sep)] for a non-empty [sep]: occurrences are taken from the
    left and do not overlap.  [skip] counts the characters of the
    occurrence just found that are still to be passed over; [cur] is the
    current piece, reversed. *)
Fixpoint split_from (sep : str) (skip : nat) (cur : str) (s : str) : list str :=
  match s with
  | [] => [rev cur]
  | c :: t =>
      match skip with
      | S k => split_from sep k cur t
      | O =>
          if startswith sep s
          then rev cur :: split_from sep (length sep - 1) [] t
          else split_from sep 0 (c :: cur) t
      end
  end.

Definition str_split (sep s : str) : list str := split_from sep 0 [] s.

(** [str(n)] for a non-negative integer. *)
Definition str_of_nat (n : nat) : str :=
  lit (NilEmpty.string_of_uint (Nat.to_uint n)).

(** ** [re.sub] with a two-group pattern and the template [\1_\2]

    A pattern is given by its matcher anchored at the start of the text,
    which returns the two groups of the leftmost-longest-greedy match the
    engine finds there.  Both patterns of the scripts consist of their two
    groups, so the match is [g1 ++ g2]; neither matches the empty
    string. *)

Definition matcher := str -> option (str * str).

Definition expand (g : str * str) : str := fst g ++ "_"%char :: snd g.

Definition match_len (g : str * str) : nat := length (fst g) + length (snd g).

(** The scan of [re.sub]: at each position not inside the previous match,
    try the pattern; on success emit the expanded template and resume
    after the match, otherwise copy one character. *)
Fixpoint re_sub_from (m : matcher) (skip : nat) (s : str) : str :=
  match s with
  | [] => []
  | c :: t =>
      match skip with
      | S k => re_sub_from m k t
      | O =>
          match m s with
          | Some g => expand g ++ re_sub_from m (match_len g - 1) t
          | None => c :: re_sub_from m 0 t
          end
      end
  end.

Definition re_sub (m : matcher) (s : str) : str := re_sub_from m 0 s.

(** The longest prefix of characters in a class, and what follows it. *)
Fixpoint span (p : ascii -> bool) (s : str) : str * str :=
  match s with
  | [] => ([], [])
  | c :: t => if p c then let (a, b) := span p t in (c :: a, b) else ([], s)
  end.

(** [(.)([A-Z][a-z]+)] *)
Definition match_word_start : matcher := fun s =>
  match s with
  | c :: u :: l :: r =>
      if is_dot_char c && is_upper u && is_lower l
      then Some ([c], u :: l :: fst (span is_lower r))
      else None
  | _ => None
  end.

(** [([a-z0-9])([A-Z])] *)
Definition match_hump : matcher := fun s =>
  match s with
  | c :: u :: _ =>
      if is_lower_or_digit c && is_upper u then Some ([c], [u]) else None
  | _ => None
  end.

(** The two substitutions and [.lower()], as on the lines commented
    "Convert camelCase to snake_case" of both scripts. *)
Definition camel_to_snake (name_without_ext : str) : str :=
  let s1 := re_sub match_word_start name_without_ext in
  lower (re_sub match_hump s1).

(** ** [os.path] (POSIX) *)

Definition is_sep (c : ascii) : bool := eqc c "/"%char.
Definition is_extsep (c : ascii) : bool := eqc c "."%char.

(** Cut [s] at its last character satisfying [p]: the text before it, and
    the text from it on. *)
Fixpoint rbreak (p : ascii -> bool) (s : str) : option (str * str) :=
  match s with
  | [] => None
  | c :: t =>
      match rbreak p t with
      | Some (b, a) => Some (c :: b, a)
      | None => if p c then Some ([], s) else None
      end
  end.

(** [os.path.split]'s cut: [(p[:i], p[i:])] for [i = p.rfind('/') + 1]. *)
Definition cut_at_last_sep (p : str) : str * str :=
  match rbreak is_sep p with
  | Some (b, a) => (b ++ ["/"%char], tl a)
  | None => ([], p)
  end.

Definition basename (p : str) : str := snd (cut_at_last_sep p).

(** [s.rstrip('/')] *)
Fixpoint lstrip_sep (s : str) : str :=
  match s with
  | c :: t => if is_sep c then lstrip_sep t else s
  | [] => []
  end.

Definition rstrip_sep (s : str) : str := rev (lstrip_sep (rev s)).

Definition dirname (p : str) : str :=
  let head := fst (cut_at_last_sep p) in
  if negb (forallb is_sep head) then rstrip_sep head else head.

(** [os.path.splitext]: the extension starts at the last dot of the last
    component, unless only dots precede it there. *)
Definition splitext (p : str) : str * str :=
  let (head, tail) := cut_at_last_sep p in
  match rbreak is_extsep tail with
  | Some (root, ext) =>
      if existsb (fun c => negb (is_extsep c)) root
      then (head ++ root, ext)
      else (p, [])
  | None => (p, [])
  end.

(** [os.path.join(a, b)] *)
Definition join (a b : str) : str :=
  if startswith ["/"%char] b then b
  else if match a with [] => true | _ => endswith ["/"%char] a end then a ++ b
  else a ++ "/"%char :: b.

(** ** The file system and [os.walk] *)

(** A directory tree.  [File] stands for whatever is not a directory; a
    directory that cannot be listed has [readable = false]; [Link] is a
    symbolic link with what it leads to; a path that names nothing resolves
    to [None].  Paths are taken free of NUL, as command-line arguments
    are. *)
#[warnings="-register-all"]
Inductive node : Type :=
| File
| Dir (readable : bool) (entries : list (str * node))
| Link (target : node).

(** What a path leads to once symbolic links are followed. *)
Fixpoint resolve (n : node) : node :=
  match n with
  | Link target => resolve target
  | _ => n
  end.

Definition filesystem := str -> option node.

Inductive exn : Type :=
| SystemExit (status : Z)
| OSError.

Inductive res (A : Type) : Type :=
| Ok (a : A)
| Raise (e : exn).
Arguments Ok {A} a.
Arguments Raise {A} e.

(** [os.scandir]: lists a readable directory, through symbolic links, and
    raises [OSError] on anything else. *)
Definition scandir (n : option node) : res (list (str * node)) :=
  match option_map resolve n with
  | Some (Dir true entries) => Ok entries
  | _ => Raise OSError
  end.

(** [entry.is_dir()], which follows symbolic links. *)
Definition is_dir (n : node) : bool :=
  match resolve n with Dir _ _ => true | _ => false end.

Definition names_where (p : node -> bool) (entries : list (str * node)) : list str :=
  map fst (filter (fun e => p (snd e)) entries).

Definition walk_item : Type := str * list str * list str.

(** [os.walk(top)], top-down, with [onerror=None] and [followlinks=False]:
    where [scandir] raises, the error is dropped and that directory yields
    nothing; an entry that is a symbolic link to a directory is listed
    among the directories and not entered, while [top] itself is listed
    through links. *)
Fixpoint walk_tree (top : str) (n : node) : list walk_item :=
  match n with
  | Dir true entries =>
      (top, names_where is_dir entries, names_where (fun x => negb (is_dir x)) entries)
      :: flat_map (fun e => match snd e with
                            | Dir _ _ => walk_tree (join top (fst e)) (snd e)
                            | _ => []
                            end) entries
  | Link target => walk_tree top target
  | _ => []
  end.

(** ** Programs: standard output, the directories walked, exceptions *)

Record world : Type := mkWorld {
  stdout : list str;   (* the argument of each [print] call, in order *)
  walked : list str    (* the argument of each [os.walk] call, in order *)
}.

Definition prog (A : Type) : Type := filesystem -> world -> res A * world.

Definition ret {A} (a : A) : prog A := fun _ w => (Ok a, w).

Definition bind {A B} (c : prog A) (k : A -> prog B) : prog B :=
  fun fs w =>
    match c fs w with
    | (Ok a, w') => k a fs w'
    | (Raise e, w') => (Raise e, w')
    end.

Notation "x <- c ;; k" := (bind c (fun x => k))
  (at level 61, c at next level, right associativity).
Notation "c ;; k" := (bind c (fun _ => k))
  (at level 61, right associativity).

Definition print (s : str) : prog unit :=
  fun _ w => (Ok tt, mkWorld (stdout w ++ [s]) (walked w)).

Definition sys_exit (status : Z) : prog unit :=
  fun _ w => (Raise (SystemExit status), w).

(** [os.walk(top)] as the loop of [get_files] consumes it, for a [top]
    free of NUL. *)
Definition os_walk (top : str) : prog (list walk_item) :=
  fun fs w =>
    (Ok (match fs top with Some n => walk_tree top n | None => [] end),
     mkWorld (stdout w) (walked w ++ [top])).

Fixpoint for_each {A} (l : list A) (body : A -> prog unit) : prog unit :=
  match l with
  | [] => ret tt
  | x :: l' => body x ;; for_each l' body
  end.

(** How the interpreter ends after running the script's [main()]. *)
Inductive termination : Type :=
| Exited (status : Z)
| Traceback (e : exn).

Definition run (p : prog unit) (fs : filesystem) : world * termination :=
  match p fs (mkWorld [] []) with
  | (Ok _, w) => (w, Exited 0)
  | (Raise (SystemExit n), w) => (w, Exited n)
  | (Raise e, w) => (w, Traceback e)
  end.

(** [get_files], the same in both scripts. *)
Definition get_files (directory extension : str) : prog (list str) :=
  items <- os_walk directory ;;
  ret (flat_map (fun it : walk_item =>
                   let '(root, _, files) := it in
                   map (join root) (filter (endswith extension) files))
                items).

(** Truth value of a string: empty is false. *)
Definition truthy (s : str) : bool :=
  match s with [] => false | _ => true end.

(** [enumerate(l)] *)
Definition enumerate {A} (l : list A) : list (nat * A) :=
  combine (seq 0 (length l)) l.

(** ** compare_files.py *)
Module CompareFiles.

Definition marker_sources : str := lit "/Sources/NeoSwift/".
Definition marker_tests : str := lit "/Tests/".

(** [swift_to_cpp_name]: [None] stands for the pair [(None, None)].  The
    subscript [[1]] is taken where the marker occurs, so the split has that
    element (lemma [split_has_second]) and the default of [nth] is never
    used. *)
Definition swift_to_cpp_name (swift_path : str) : option (str * str) :=
  let filename := basename swift_path in
  let name_without_ext := fst (splitext filename) in
  let snake_case := camel_to_snake name_without_ext in
  if contains marker_sources swift_path then
    let subpath := nth 1 (str_split marker_sources swift_path) [] in
    Some (dirname subpath, snake_case)
  else if contains marker_tests swift_path then
    let subpath := nth 1 (str_split marker_tests swift_path) [] in
    Some (dirname subpath, snake_case)
  else None.

Definition entry : Type := str * str * str.

(** The inner loops: is [name] in the lowercased base name of some
    candidate. *)
Definition found (name : str) (candidates : list str) : bool :=
  existsb (fun c => contains name (lower (basename c))) candidates.

(** One iteration of the loop over [swift_files]. *)
Definition check (cpp_headers cpp_sources : list str)
    (acc : list entry * list entry) (swift_file : str) : list entry * list entry :=
  let (missing_headers, missing_sources) := acc in
  match swift_to_cpp_name swift_file with
  | None => acc
  | Some (directory, name) =>
      if negb (truthy directory) || negb (truthy name) then acc
      else
        (if found name cpp_headers then missing_headers
         else missing_headers ++ [(swift_file, directory, name)],
         if found name cpp_sources then missing_sources
         else missing_sources ++ [(swift_file, directory, name)])
  end.

Definition compare (swift_files cpp_headers cpp_sources : list str)
  : list entry * list entry :=
  fold_left (check cpp_headers cpp_sources) swift_files ([], []).

Definition usage : str :=
  lit "Usage: python compare_files.py <swift_dir> <cpp_include_dir> <cpp_src_dir> [cpp_test_dir]".

Definition total_line (what : string) (n : nat) : str :=
  lit "Total " ++ lit what ++ lit ": " ++ str_of_nat n.

Definition missing_line (ext : string) (e : entry) : str :=
  let '(swift_file, directory, name) := e in
  lit "  " ++ swift_file ++ lit " -> " ++ directory ++ lit "/" ++ name ++ lit ext.

Definition newline : str := ["010"%char].

Definition main (argv : list str) : prog unit :=
  (if length argv <? 4 then print usage ;; sys_exit 1 else ret tt) ;;
  let swift_dir := nth 1 argv [] in
  let cpp_include_dir := nth 2 argv [] in
  let cpp_src_dir := nth 3 argv [] in
  let cpp_test_dir := if 4 <? length argv then Some (nth 4 argv []) else None in
  swift_files <- get_files swift_dir (lit ".swift") ;;
  cpp_headers <- get_files cpp_include_dir (lit ".hpp") ;;
  cpp_sources <- get_files cpp_src_dir (lit ".cpp") ;;
  cpp_tests <- match cpp_test_dir with
               | Some d => if truthy d then get_files d (lit ".cpp") else ret []
               | None => ret []
               end ;;
  let (missing_headers, missing_sources) :=
    compare swift_files cpp_headers cpp_sources in
  print (total_line "Swift files" (length swift_files)) ;;
  print (total_line "C++ headers" (length cpp_headers)) ;;
  print (total_line "C++ sources" (length cpp_sources)) ;;
  print (total_line "C++ tests" (length cpp_tests)) ;;
  print (newline ++ lit "Missing C++ headers:") ;;
  for_each missing_headers (fun e => print (missing_line ".hpp" e)) ;;
  print (newline ++ lit "Missing C++ sources:") ;;
  for_each missing_sources (fun e => print (missing_line ".cpp" e)).

End CompareFiles.

(** ** find_missing.py *)
Module FindMissing.

Definition swift_file_to_cpp_name (swift_path : str) : str :=
  let filename := basename swift_path in
  let name_without_ext := fst (splitext filename) in
  camel_to_snake name_without_ext.

Definition swift_dir : str :=
  lit "/Users/jinghuiliao/git/r3e/NeoSwift/Sources/NeoSwift".
Definition cpp_include_dir : str :=
  lit "/Users/jinghuiliao/git/r3e/NeoSwift/NeoCpp/include/neocpp".
Definition cpp_src_dir : str :=
  lit "/Users/jinghuiliao/git/r3e/NeoSwift/NeoCpp/src".

Definition entry : Type := str * str.

(** [any(swift_name in n for n in names)] *)
Definition any_contains (swift_name : str) (names : list str) : bool :=
  existsb (fun n => contains swift_name n) names.

Definition stem (f : str) : str := fst (splitext (basename f)).

(** One iteration of the loop over [enumerate(swift_names)]. *)
Definition check (swift_files cpp_header_names cpp_source_names : list str)
    (acc : list entry * list entry) (it : nat * str) : list entry * list entry :=
  let (missing_headers, missing_sources) := acc in
  let (i, swift_name) := it in
  (if negb (any_contains swift_name cpp_header_names)
   then missing_headers ++ [(nth i swift_files [], swift_name)]
   else missing_headers,
   if negb (any_contains swift_name cpp_source_names)
   then missing_sources ++ [(nth i swift_files [], swift_name)]
   else missing_sources).

Definition compare (swift_files cpp_headers cpp_sources : list str)
  : list entry * list entry :=
  let swift_names := map swift_file_to_cpp_name swift_files in
  let cpp_header_names := map stem cpp_headers in
  let cpp_source_names := map stem cpp_sources in
  fold_left (check swift_files cpp_header_names cpp_source_names)
            (enumerate swift_names) ([], []).

Definition rank_line (ext : string) (it : nat * entry) : str :=
  let '(i, (swift_file, name)) := it in
  str_of_nat (i + 1) ++ lit ". " ++ basename swift_file ++ lit " -> " ++ name ++ lit ext.

Definition newline : str := ["010"%char].

Definition summary_line (headers sources : nat) : str :=
  newline ++ lit "Total: " ++ str_of_nat headers ++ lit " missing headers, "
  ++ str_of_nat sources ++ lit " missing sources".

Definition main : prog unit :=
  swift_files <- get_files swift_dir (lit ".swift") ;;
  cpp_headers <- get_files cpp_include_dir (lit ".hpp") ;;
  cpp_sources <- get_files cpp_src_dir (lit ".cpp") ;;
  let (missing_headers, missing_sources) :=
    compare swift_files cpp_headers cpp_sources in
  print (lit "Top 10 Missing Headers:") ;;
  for_each (enumerate (firstn 10 missing_headers))
           (fun it => print (rank_line ".hpp" it)) ;;
  print (newline ++ lit "Top 10 Missing Sources:") ;;
  for_each (enumerate (firstn 10 missing_sources))
           (fun it => print (rank_line ".cpp" it)) ;;
  print (summary_line (length missing_headers) (length missing_sources)).

End FindMissing.

(** ** The canonical-name rule in the specification's words

    One pass over the text that puts an underscore before every character
    selected by [rule], which sees the character before (if any), the
    character itself and the text after it. *)

Definition rule : Type := option ascii -> ascii -> str -> bool.

Fixpoint insert_before (r : rule) (prev : option ascii) (s : str) : str :=
  match s with
  | [] => []
  | c :: t =>
      (if r prev c t then ["_"%char; c] else [c]) ++ insert_before r (Some c) t
  end.

Definition starts_lower (s : str) : bool :=
  match s with l :: _ => is_lower l | [] => false end.

(** Pass (a): before an uppercase letter followed by a lowercase letter and
    preceded by a character that [allowed] accepts. *)
Definition rule_a (allowed : ascii -> bool) : rule := fun prev c t =>
  match prev with
  | Some p => allowed p && is_upper c && starts_lower t
  | None => false
  end.

(** Pass (b): before an uppercase letter that follows a lowercase letter or
    a digit. *)
Definition rule_b : rule := fun prev c _ =>
  match prev with
  | Some p => is_lower_or_digit p && is_upper c
  | None => false
  end.

Definition any_char (c : ascii) : bool := true.

(** Strip the extension, pass (a), pass (b), lowercase. *)
Definition canonical_by_rule (allowed : ascii -> bool) (base : str) : str :=
  let stem := fst (splitext base) in
  lower (insert_before rule_b None (insert_before (rule_a allowed) None stem)).

(** Both passes at once. *)
Definition rule_ab : rule := fun prev c t =>
  rule_a is_dot_char prev c t || rule_b prev c t.

(** A rule that only ever selects uppercase letters. *)
Definition needs_upper (r : rule) : Prop :=
  forall prev c t, is_upper c = false -> r prev c t = false.

Definition no_upper (s : str) : bool := forallb (fun c => negb (is_upper c)) s.

(** The character a pass has just left behind after reading [s]. *)
Definition after (prev : option ascii) (s : str) : option ascii :=
  fold_left (fun _ c => Some c) s prev.

(** ** Notions used in the statements *)

(** The value [get_files] returns. *)
Definition scan (fs : filesystem) (directory extension : str) : list str :=
  flat_map (fun it : walk_item =>
              let '(root, _, files) := it in
              map (join root) (filter (endswith extension) files))
           (match fs directory with Some n => walk_tree directory n | None => [] end).

(** The text after the leftmost occurrence of [sep], if there is one. *)
Fixpoint after_first (sep s : str) : option str :=
  if startswith sep s then Some (skipn (length sep) s)
  else match s with
       | [] => None
       | _ :: t => after_first sep t
       end.

(** The path contains one of the two markers. *)
Definition has_marker (path : str) : bool :=
  contains CompareFiles.marker_sources path ||
  contains CompareFiles.marker_tests path.

(** The guard at the head of the comparison loop of compare_files.py sends
    the file to [continue]. *)
Definition skipped (swift_file : str) : bool :=
  match CompareFiles.swift_to_cpp_name swift_file with
  | None => true
  | Some (directory, name) => negb (truthy directory) || negb (truthy name)
  end.

Definition path_of (e : CompareFiles.entry) : str := fst (fst e).

(** No entry for [swift_file] in either list of compare_files.py, whatever
    the scanned lists are. *)
Definition excluded (swift_file : str) : Prop :=
  forall swift_files cpp_headers cpp_sources e,
    In e (fst (CompareFiles.compare swift_files cpp_headers cpp_sources)) \/
    In e (snd (CompareFiles.compare swift_files cpp_headers cpp_sources)) ->
    path_of e <> swift_file.

(** What one file contributes to a missing list of compare_files.py. *)
Definition contribution (candidates : list str) (swift_file : str)
  : list CompareFiles.entry :=
  match CompareFiles.swift_to_cpp_name swift_file with
  | None => []
  | Some (directory, name) =>
      if skipped swift_file || CompareFiles.found name candidates then []
      else [(swift_file, directory, name)]
  end.

(** The marker the function goes by: the first of the two that occurs. *)
Definition marker_of (path : str) : option str :=
  if contains CompareFiles.marker_sources path
  then Some CompareFiles.marker_sources
  else if contains CompareFiles.marker_tests path
       then Some CompareFiles.marker_tests
       else None.

(** The optional fourth directory of compare_files.py. *)
Definition test_dir (argv : list str) : option str :=
  if 4 <? length argv
  then (if truthy (nth 4 argv []) then Some (nth 4 argv []) else None)
  else None.

Definition compare_files_report (fs : filesystem) (argv : list str) : list str :=
  let swift_files := scan fs (nth 1 argv []) (lit ".swift") in
  let cpp_headers := scan fs (nth 2 argv []) (lit ".hpp") in
  let cpp_sources := scan fs (nth 3 argv []) (lit ".cpp") in
  let cpp_tests := match test_dir argv with
                   | Some d => scan fs d (lit ".cpp")
                   | None => []
                   end in
  [CompareFiles.total_line "Swift files" (length swift_files);
   CompareFiles.total_line "C++ headers" (length cpp_headers);
   CompareFiles.total_line "C++ sources" (length cpp_sources);
   CompareFiles.total_line "C++ tests" (length cpp_tests);
   CompareFiles.newline ++ lit "Missing C++ headers:"]
  ++ map (CompareFiles.missing_line ".hpp")
         (fst (CompareFiles.compare swift_files cpp_headers cpp_sources))
  ++ [CompareFiles.newline ++ lit "Missing C++ sources:"]
  ++ map (CompareFiles.missing_line ".cpp")
         (snd (CompareFiles.compare swift_files cpp_headers cpp_sources)).

(** What one file contributes to a missing list of find_missing.py. *)
Definition raw_contribution (candidates : list str) (swift_file : str)
  : list FindMissing.entry :=
  let name := FindMissing.swift_file_to_cpp_name swift_file in
  if FindMissing.any_contains name (map FindMissing.stem candidates) then []
  else [(swift_file, name)].

(** What find_missing.py prints. *)
Definition find_missing_report (fs : filesystem) : list str :=
  let swift_files := scan fs FindMissing.swift_dir (lit ".swift") in
  let cpp_headers := scan fs FindMissing.cpp_include_dir (lit ".hpp") in
  let cpp_sources := scan fs FindMissing.cpp_src_dir (lit ".cpp") in
  let missing := FindMissing.compare swift_files cpp_headers cpp_sources in
  [lit "Top 10 Missing Headers:"]
  ++ map (FindMissing.rank_line ".hpp") (enumerate (firstn 10 (fst missing)))
  ++ [FindMissing.newline ++ lit "Top 10 Missing Sources:"]
  ++ map (FindMissing.rank_line ".cpp") (enumerate (firstn 10 (snd missing)))
  ++ [FindMissing.summary_line (length (fst missing)) (length (snd missing))].

(** Concrete inputs. *)
Definition root_level_file : str := lit "/Sources/NeoSwift/Foo.swift".
Definition nested_file : str :=
  lit "/r/Sources/NeoSwift/Foo/Bar/GetBlockHeader.swift".
Definition impl_header : str := lit "/inc/get_block_header_impl.hpp".
Definition line_feed_base : str := "010"%char :: lit "Ab.swift".

(** A file system without any directory. *)
Definition empty_fs : filesystem := fun _ => None.

(** Where the code's pass (a) makes no attempt with [prev] as its first
    group, that is, [prev] sits inside the lowercase run of the previous
    match, pass (b) puts the underscore. *)
Definition settled (prev : option ascii) (s : str) : Prop :=
  match s with
  | [] => True
  | c :: t =>
      rule_a is_dot_char prev c t = false \/
      exists p, prev = Some p /\ is_lower p = true
  end.

(** ** Further notions *)

Definition not_underscore (c : ascii) : bool := negb (eqc c "_"%char).

Definition slash_free (s : str) : bool := forallb (fun c => negb (is_sep c)) s.

(** Every entry name of the tree is free of [/], as the names a directory
    listing returns are. *)
Fixpoint names_ok (n : node) : bool :=
  match n with
  | File => true
  | Dir _ entries =>
      forallb (fun e => slash_free (fst e) && names_ok (snd e)) entries
  | Link target => names_ok target
  end.

(** compare_files.py goes on to compare the file and finds no candidate. *)
Definition unmatched (candidates : list str) (swift_file : str) : bool :=
  negb (skipped swift_file) &&
  negb (CompareFiles.found (FindMissing.swift_file_to_cpp_name swift_file)
                           candidates).

(** find_missing.py finds no candidate for the file. *)
Definition raw_unmatched (candidates : list str) (swift_file : str) : bool :=
  negb (FindMissing.any_contains (FindMissing.swift_file_to_cpp_name swift_file)
                                 (map FindMissing.stem candidates)).

(** A small tree: a file at the top, a readable and an unreadable
    subdirectory. *)
Definition sample_tree : node :=
  Dir true
    [(lit "Top.swift", File);
     (lit "Foo", Dir true [(lit "GetBlockHeader.swift", File);
                           (lit "notes.txt", File)]);
     (lit "Locked", Dir false [(lit "Hidden.swift", File)])].

Definition sample_fs : filesystem := fun p =>
  if startswith p (lit "/r") && startswith (lit "/r") p
  then Some sample_tree else None.

(** A second source file, whose canonical name [block] lies inside the
    canonical name of [nested_file]. *)
Definition short_named_file : str := lit "/r/Sources/NeoSwift/Core/Block.swift".

(** ** Notions for the later statements *)

(** The value [.lower()] is called on: the result of the two
    substitutions. *)
Definition insert_underscores (name_without_ext : str) : str :=
  re_sub match_hump (re_sub match_word_start name_without_ext).

(** Letters in the wide sense, among the characters below U+0100:
    uppercase [A-Z] and U+00C0..U+00DE but the multiplication sign;
    lowercase [a-z], the micro sign and U+00DF..U+00FF but the division
    sign. *)
Definition is_uppercase_letter (c : ascii) : bool :=
  is_upper c || in_range 192 214 c || in_range 216 222 c.

Definition is_lowercase_letter (c : ascii) : bool :=
  is_lower c || (code c =? 181) || in_range 223 246 c || in_range 248 255 c.

(** The two passes of the specification's words with letters in the wide
    sense and any character allowed before the uppercase letter. *)
Definition worded_rule_a : rule := fun prev c t =>
  match prev with
  | Some _ =>
      is_uppercase_letter c &&
      match t with l :: _ => is_lowercase_letter l | [] => false end
  | None => false
  end.

Definition worded_rule_b : rule := fun prev c _ =>
  match prev with
  | Some p => (is_lowercase_letter p || is_digit p) && is_uppercase_letter c
  | None => false
  end.

Definition canonical_as_worded (base : str) : str :=
  let stem := fst (splitext base) in
  lower (insert_before worded_rule_b None
           (insert_before worded_rule_a None stem)).

(** The base name [e-acute B .swift]. *)
Definition accented_base : str := "233"%char :: lit "B.swift".

Definition str_eqb (a b : str) : bool := startswith a b && startswith b a.

(** A tree with a file directly in the marker directory, a file below it,
    a file outside any marker, and a symbolic link to a directory. *)
Definition other_tree : node := Dir true [(lit "Util.swift", File)].

Definition audit_tree : node :=
  Dir true
    [(lit "Sources",
      Dir true [(lit "NeoSwift",
                 Dir true [(lit "Top.swift", File);
                           (lit "Core", Dir true [(lit "Block.swift", File)])])]);
     (lit "Other", other_tree);
     (lit "Linked", Link (Dir true [(lit "Deep.swift", File)]))].

Definition audit_fs : filesystem := fun p =>
  if str_eqb p (lit "/w") then Some audit_tree
  else if str_eqb p (lit "/w/Other") then Some other_tree
  else None.

Definition audit_argv : list str :=
  [lit "compare_files.py"; lit "/w"; lit "/inc"; lit "/src"].

(** * Properties *)

(** ** Character classes *)

Ltac by_cases_on_char c :=
  destruct c as [[] [] [] [] [] [] [] []]; vm_compute; congruence.

Lemma upper_not_lower c : is_upper c = true -> is_lower c = false.
Proof. by_cases_on_char c. Qed.

Lemma lower_not_upper c : is_lower c = true -> is_upper c = false.
Proof. by_cases_on_char c. Qed.

Lemma upper_not_lower_or_digit c :
  is_upper c = true -> is_lower_or_digit c = false.
Proof. by_cases_on_char c. Qed.

Lemma lower_is_lower_or_digit c :
  is_lower c = true -> is_lower_or_digit c = true.
Proof. unfold is_lower_or_digit. intros ->. reflexivity. Qed.

Lemma lower_char_not_upper c : is_upper (lower_char c) = false.
Proof. by_cases_on_char c. Qed.

Lemma lower_char_idem c : lower_char (lower_char c) = lower_char c.
Proof. by_cases_on_char c. Qed.

Lemma lower_idem s : lower (lower s) = lower s.
Proof.
  unfold lower. rewrite map_map. apply map_ext. intro c. apply lower_char_idem.
Qed.

Lemma lower_no_upper s : no_upper (lower s) = true.
Proof.
  induction s as [|c s IH]; simpl; [reflexivity|].
  now rewrite lower_char_not_upper, IH.
Qed.

(** ** [span] *)

Lemma span_app p s : fst (span p s) ++ snd (span p s) = s.
Proof.
  induction s as [|c s IH]; simpl; [reflexivity|].
  destruct (p c); [|reflexivity].
  destruct (span p s) as [a b]; simpl in *. now rewrite IH.
Qed.

Lemma span_all p s : forallb p (fst (span p s)) = true.
Proof.
  induction s as [|c s IH]; simpl; [reflexivity|].
  destruct (p c) eqn:E; [|reflexivity].
  destruct (span p s) as [a b]; simpl in *. now rewrite E, IH.
Qed.

(** ** The scan of [re.sub] *)

Lemma re_sub_from_skip m k s :
  re_sub_from m k s = re_sub_from m 0 (skipn k s).
Proof.
  revert s; induction k as [|k IH]; intros [|c t]; simpl; try reflexivity.
  apply IH.
Qed.

(** A failed attempt copies one character. *)
Lemma re_sub_miss m c t :
  m (c :: t) = None -> re_sub m (c :: t) = c :: re_sub m t.
Proof. unfold re_sub; simpl. intros ->. reflexivity. Qed.

(** A match [g1 ++ g2] is replaced by [g1 ++ "_" ++ g2] and the scan
    resumes behind it. *)
Lemma re_sub_hit m g1 g2 rest :
  g1 ++ g2 <> [] ->
  m (g1 ++ g2 ++ rest) = Some (g1, g2) ->
  re_sub m (g1 ++ g2 ++ rest) = g1 ++ "_"%char :: g2 ++ re_sub m rest.
Proof.
  intros Hne Hm. unfold re_sub.
  destruct (g1 ++ g2 ++ rest) as [|c t] eqn:E.
  - rewrite app_assoc in E. apply app_eq_nil in E. tauto.
  - simpl. rewrite Hm. unfold expand, match_len; simpl.
    rewrite re_sub_from_skip.
    replace (skipn (length g1 + length g2 - 1) t) with rest.
    + now rewrite <- app_assoc.
    + assert (H : skipn (length g1 + length g2) (c :: t) = rest).
      { rewrite <- E, app_assoc, <- length_app.
        now rewrite skipn_app, skipn_all, Nat.sub_diag. }
      destruct (length g1 + length g2) as [|n] eqn:En.
      * rewrite <- length_app in En. apply length_zero_iff_nil in En. tauto.
      * simpl in *. now rewrite Nat.sub_0_r.
Qed.

(** ** One-pass insertion *)

Lemma insert_before_cons r prev c t :
  insert_before r prev (c :: t) =
  (if r prev c t then ["_"%char; c] else [c]) ++ insert_before r (Some c) t.
Proof. reflexivity. Qed.

Lemma insert_before_no_upper r prev a b :
  needs_upper r -> no_upper a = true ->
  insert_before r prev (a ++ b) = a ++ insert_before r (after prev a) b.
Proof.
  intros Hr. revert prev. induction a as [|c a IH]; intros prev Ha; simpl in *.
  - reflexivity.
  - apply andb_true_iff in Ha as [Hc Ha]. apply negb_true_iff in Hc.
    rewrite (Hr _ _ _ Hc). simpl. now rewrite IH.
Qed.

Lemma insert_before_id r prev s :
  needs_upper r -> no_upper s = true -> insert_before r prev s = s.
Proof.
  intros Hr Hs. rewrite <- (app_nil_r s) at 1.
  rewrite insert_before_no_upper by assumption. simpl. apply app_nil_r.
Qed.

Lemma rule_a_needs_upper allowed : needs_upper (rule_a allowed).
Proof.
  intros [p|] c t Hc; simpl; [|reflexivity].
  rewrite Hc. now rewrite andb_false_r.
Qed.

Lemma rule_b_needs_upper : needs_upper rule_b.
Proof.
  intros [p|] c t Hc; simpl; [|reflexivity]. rewrite Hc. apply andb_false_r.
Qed.

Lemma rule_b_rest prev c t t' : rule_b prev c t = rule_b prev c t'.
Proof. reflexivity. Qed.

Lemma rule_ab_needs_upper : needs_upper rule_ab.
Proof.
  intros prev c t Hc. unfold rule_ab.
  now rewrite rule_a_needs_upper, rule_b_needs_upper.
Qed.

Lemma all_lower_no_upper s : forallb is_lower s = true -> no_upper s = true.
Proof.
  induction s as [|c s IH]; simpl; [reflexivity|].
  intros H. apply andb_true_iff in H as [Hc Hs].
  destruct (is_upper c) eqn:E.
  - apply upper_not_lower in E. congruence.
  - simpl. auto.
Qed.

Lemma after_lower p s :
  is_lower p = true -> forallb is_lower s = true ->
  exists q, after (Some p) s = Some q /\ is_lower q = true.
Proof.
  revert p. induction s as [|c s IH]; intros p Hp Hs; simpl in *.
  - eauto.
  - apply andb_true_iff in Hs as [Hc Hs]. now apply IH.
Qed.

(** ** Pass (b) of the code is pass (b) of the rule *)

Lemma re_sub_hump_gen n : forall s prev,
  length s <= n ->
  match s with c :: t => rule_b prev c t = false | [] => True end ->
  re_sub match_hump s = insert_before rule_b prev s.
Proof.
  induction n as [|n IH]; intros [|c t] prev Hn Hp; simpl in Hn;
    try reflexivity; try lia.
  rewrite insert_before_cons, Hp. simpl.
  destruct t as [|u r].
  - reflexivity.
  - assert (E : rule_b (Some c) u r = is_lower_or_digit c && is_upper u)
      by reflexivity.
    destruct (is_lower_or_digit c && is_upper u) eqn:B.
    + change (c :: u :: r) with ([c] ++ [u] ++ r).
      rewrite re_sub_hit; [| discriminate | simpl; now rewrite B].
      simpl app. rewrite insert_before_cons, E. simpl app.
      do 3 f_equal. apply IH; [simpl in Hn; lia|].
      destruct r as [|x r']; [exact I|]. simpl.
      apply andb_true_iff in B as [_ Hu].
      now rewrite (upper_not_lower_or_digit _ Hu).
    + rewrite re_sub_miss by (simpl; now rewrite B).
      f_equal. apply IH; [simpl in Hn |- *; lia | exact E].
Qed.

Lemma re_sub_hump s : re_sub match_hump s = insert_before rule_b None s.
Proof.
  apply (re_sub_hump_gen (length s)); [lia|]. now destruct s.
Qed.

(** ** Pass (a) of the code followed by pass (b) *)

Lemma settled_rule prev c t :
  settled prev (c :: t) -> rule_b prev c t = rule_ab prev c t.
Proof.
  unfold rule_ab. intros [H | (p & -> & Hp)].
  - now rewrite H.
  - simpl. rewrite (lower_is_lower_or_digit _ Hp). simpl.
    destruct (is_upper c); [now rewrite orb_true_r | now rewrite !andb_false_r].
Qed.

Lemma match_word_start_miss c t :
  match_word_start (c :: t) = None -> settled (Some c) t.
Proof.
  destruct t as [|u [|l r]]; simpl; intros H; try exact I.
  - left. apply andb_false_r.
  - left. now destruct (is_dot_char c && is_upper u && is_lower l).
Qed.

Lemma word_start_then_hump n : forall s prev,
  length s <= n -> settled prev s ->
  insert_before rule_b prev (re_sub match_word_start s) =
  insert_before rule_ab prev s.
Proof.
  induction n as [|n IH]; intros [|c t] prev Hn Hp; simpl in Hn;
    try reflexivity; try lia.
  destruct (match_word_start (c :: t)) as [g|] eqn:M.
  - destruct t as [|u [|l r]]; try discriminate. simpl in M.
    destruct (is_dot_char c) eqn:Dc; [|discriminate].
    destruct (is_upper u) eqn:Uu; [|discriminate].
    destruct (is_lower l) eqn:Ll; [|discriminate].
    simpl in M. injection M as <-.
    assert (Hs : c :: u :: l :: r =
                 [c] ++ (u :: l :: fst (span is_lower r)) ++ snd (span is_lower r))
      by (simpl; now rewrite span_app).
    rewrite Hs at 1.
    rewrite re_sub_hit;
      [| discriminate | rewrite <- Hs; simpl; now rewrite Dc, Uu, Ll ].
    pose proof (span_all is_lower r) as Hrun.
    pose proof (span_app is_lower r) as Hr.
    destruct (span is_lower r) as [lows rest]; simpl in Hr, Hrun |- *.
    subst r.
    rewrite (rule_b_rest prev c _ (u :: l :: lows ++ rest)).
    rewrite (settled_rule _ _ _ Hp). f_equal.
    change (is_upper "_") with false. rewrite andb_false_r.
    rewrite (upper_not_lower_or_digit _ Uu).
    rewrite (rule_ab_needs_upper (Some u) l) by now apply lower_not_upper.
    unfold rule_ab at 1. simpl rule_a. rewrite Dc, Uu, Ll. simpl.
    do 3 f_equal.
    pose proof (all_lower_no_upper _ Hrun) as Hnu.
    rewrite !insert_before_no_upper
      by (assumption || apply rule_b_needs_upper || apply rule_ab_needs_upper).
    f_equal. apply IH.
    + simpl in Hn. rewrite length_app in Hn. lia.
    + destruct rest as [|x rest']; [exact I|]. right.
      now apply after_lower.
  - rewrite (re_sub_miss _ _ _ M), !insert_before_cons.
    rewrite (rule_b_rest prev c _ t).
    rewrite (settled_rule _ _ _ Hp). f_equal.
    apply IH; [lia | now apply match_word_start_miss].
Qed.

(** The code's two substitutions amount to one pass with both rules. *)
Lemma two_passes_of_code s :
  re_sub match_hump (re_sub match_word_start s) = insert_before rule_ab None s.
Proof.
  rewrite re_sub_hump.
  apply (word_start_then_hump (length s)); [lia|].
  destruct s; [exact I | now left].
Qed.

(** So do the two passes of the rule, when pass (a) allows what [.] does. *)
Lemma two_passes_of_rule s : forall prev,
  insert_before rule_b prev (insert_before (rule_a is_dot_char) prev s) =
  insert_before rule_ab prev s.
Proof.
  induction s as [|c t IH]; intros prev; [reflexivity|].
  rewrite !insert_before_cons. unfold rule_ab at 1.
  destruct (rule_a is_dot_char prev c t) eqn:A.
  - simpl app. rewrite !insert_before_cons.
    rewrite (rule_b_needs_upper prev "_"%char) by reflexivity.
    simpl app. do 2 f_equal. apply IH.
  - simpl app. rewrite insert_before_cons.
    rewrite (rule_b_rest prev c _ t). simpl orb.
    f_equal. apply IH.
Qed.

Lemma camel_to_snake_one_pass s :
  camel_to_snake s = lower (insert_before rule_ab None s).
Proof. unfold camel_to_snake. now rewrite two_passes_of_code. Qed.

(** ** The canonical name *)

(** C1, as stated: the canonical name is the result of stripping the
    extension, pass (a) with ANY character allowed before the uppercase
    letter, pass (b), and lowercasing.  This fails for the base name made of
    a line feed followed by [Ab.swift]: the pattern's [.] does not match a
    line feed, so the code leaves the stem alone, while the rule as worded
    puts an underscore after the line feed, whether its letters are read as
    A-Z and a-z or in the wide sense.  Read in the wide sense the letters
    fail too: in [e-acute B .swift] the B follows a lowercase letter, yet
    the code, whose classes are [[a-z0-9]] and [[A-Z]], puts no underscore
    there. *)
Lemma C1_line_feed_counterexample :
  FindMissing.swift_file_to_cpp_name line_feed_base = "010"%char :: lit "ab" /\
  canonical_by_rule any_char (basename line_feed_base)
    = "010"%char :: lit "_ab" /\
  FindMissing.swift_file_to_cpp_name line_feed_base <>
  canonical_by_rule any_char (basename line_feed_base) /\
  FindMissing.swift_file_to_cpp_name line_feed_base <>
  canonical_as_worded (basename line_feed_base) /\
  FindMissing.swift_file_to_cpp_name accented_base = "233"%char :: lit "b" /\
  canonical_as_worded (basename accented_base) = "233"%char :: lit "_b" /\
  FindMissing.swift_file_to_cpp_name accented_base <>
  canonical_as_worded (basename accented_base).
Proof. repeat split; try reflexivity; vm_compute; discriminate. Qed.

(** C1, amended: for every path, the canonical name both scripts derive
    from its base name is the result of stripping the extension, then pass
    (a), which puts an underscore before every letter A-Z that is followed
    by a letter a-z and preceded by a character other than a line feed,
    then pass (b), which puts one before every letter A-Z that follows a
    letter a-z or a digit 0-9, then lowercasing; it sends NeoCpp to neo_cpp
    and getTXHash to get_tx_hash. *)
Theorem C1_canonical_name_by_rule : forall path : str,
  FindMissing.swift_file_to_cpp_name path =
    canonical_by_rule is_dot_char (basename path) /\
  match CompareFiles.swift_to_cpp_name path with
  | Some (_, name) => name = canonical_by_rule is_dot_char (basename path)
  | None => True
  end /\
  camel_to_snake (lit "NeoCpp") = lit "neo_cpp" /\
  camel_to_snake (lit "getTXHash") = lit "get_tx_hash" /\
  FindMissing.swift_file_to_cpp_name (lit "NeoCpp.swift") = lit "neo_cpp" /\
  FindMissing.swift_file_to_cpp_name (lit "getTXHash.swift") = lit "get_tx_hash".
Proof.
  intros path.
  assert (E : camel_to_snake (fst (splitext (basename path))) =
              canonical_by_rule is_dot_char (basename path)).
  { unfold canonical_by_rule.
    now rewrite camel_to_snake_one_pass, two_passes_of_rule. }
  repeat split; try reflexivity.
  - exact E.
  - unfold CompareFiles.swift_to_cpp_name.
    destruct (contains CompareFiles.marker_sources path); [exact E|].
    destruct (contains CompareFiles.marker_tests path); [exact E | exact I].
Qed.

(** C8: the camel-case-to-snake-case transform (the two substitutions and
    the lowercasing) applied to its own output returns that output. *)
Theorem C8_camel_to_snake_idempotent : forall s : str,
  camel_to_snake (camel_to_snake s) = camel_to_snake s.
Proof.
  intros s. rewrite (camel_to_snake_one_pass (camel_to_snake s)).
  rewrite insert_before_id.
  - rewrite camel_to_snake_one_pass. apply lower_idem.
  - apply rule_ab_needs_upper.
  - unfold camel_to_snake. apply lower_no_upper.
Qed.

(** The whole of [swift_file_to_cpp_name], which strips an extension before
    the transform, is a different matter: a canonical name that contains a
    dot loses its tail when fed back. *)
Remark swift_file_to_cpp_name_twice :
  FindMissing.swift_file_to_cpp_name (lit "Foo.Bar.swift") = lit "foo._bar" /\
  FindMissing.swift_file_to_cpp_name (lit "foo._bar") = lit "foo".
Proof. split; reflexivity. Qed.

(** ** [str.split] *)

Lemma startswith_nil_r p : startswith p [] = true -> p = [].
Proof. destruct p; [reflexivity | discriminate]. Qed.

Lemma split_from_skip sep k cur s :
  split_from sep k cur s = split_from sep 0 cur (skipn k s).
Proof.
  revert s; induction k as [|k IH]; intros [|c t]; simpl; try reflexivity.
  apply IH.
Qed.

Lemma split_from_hit sep cur s :
  sep <> [] -> startswith sep s = true ->
  split_from sep 0 cur s = rev cur :: split_from sep 0 [] (skipn (length sep) s).
Proof.
  intros Hne H. destruct s as [|c t].
  - apply startswith_nil_r in H. contradiction.
  - simpl split_from. rewrite H, split_from_skip.
    destruct sep as [|a sep']; [contradiction|].
    simpl. now rewrite Nat.sub_0_r.
Qed.

Lemma split_from_miss sep cur c t :
  startswith sep (c :: t) = false ->
  split_from sep 0 cur (c :: t) = split_from sep 0 (c :: cur) t.
Proof. intros H. simpl split_from. now rewrite H. Qed.

Lemma split_from_absent sep : forall s cur,
  contains sep s = false -> split_from sep 0 cur s = [rev cur ++ s].
Proof.
  induction s as [|c t IH]; intros cur H.
  - simpl. now rewrite app_nil_r.
  - simpl in H. apply orb_false_iff in H as [H1 H2].
    rewrite split_from_miss by exact H1. rewrite IH by exact H2.
    simpl. now rewrite <- app_assoc.
Qed.

Lemma contains_after_first sep s :
  contains sep s = true <-> exists rest, after_first sep s = Some rest.
Proof.
  induction s as [|c t IH]; simpl.
  - destruct (startswith sep []); simpl; split; eauto.
    + discriminate.
    + intros [r H]. discriminate.
  - destruct (startswith sep (c :: t)); simpl; [split; eauto|exact IH].
Qed.

Lemma split_from_nonempty sep : forall s k cur,
  1 <= length (split_from sep k cur s).
Proof.
  induction s as [|c t IH]; intros k cur; simpl; [lia|].
  destruct k as [|k]; [|apply IH].
  destruct (startswith sep (c :: t)); [simpl; lia | apply IH].
Qed.

(** Element [1] of the split exists whenever the marker occurs, so the
    subscript of the source never fails. *)
Lemma split_has_second sep : forall s cur,
  sep <> [] -> contains sep s = true ->
  2 <= length (split_from sep 0 cur s).
Proof.
  intros s cur Hne. revert cur. induction s as [|c t IH]; intros cur H.
  - simpl in H. rewrite orb_false_r in H.
    apply startswith_nil_r in H. contradiction.
  - destruct (startswith sep (c :: t)) eqn:E.
    + rewrite split_from_hit by assumption. simpl.
      pose proof (split_from_nonempty sep (skipn (length sep) (c :: t)) 0 []).
      lia.
    + rewrite split_from_miss by exact E. apply IH.
      simpl in H. now rewrite E in H.
Qed.

(** Where the marker does not occur again behind its first occurrence,
    element [1] of the split is all the text behind that occurrence. *)
Lemma split_second_single sep : forall s cur rest,
  sep <> [] -> after_first sep s = Some rest -> contains sep rest = false ->
  nth 1 (split_from sep 0 cur s) [] = rest.
Proof.
  intros s cur rest Hne. revert cur.
  induction s as [|c t IH]; intros cur Ha Hr.
  - simpl in Ha. destruct (startswith sep []) eqn:E; [|discriminate].
    apply startswith_nil_r in E. contradiction.
  - simpl in Ha. destruct (startswith sep (c :: t)) eqn:E.
    + injection Ha as Ha. rewrite split_from_hit by assumption.
      rewrite Ha, split_from_absent by exact Hr. reflexivity.
    + rewrite split_from_miss by exact E. now apply IH.
Qed.

(** ** The relative directory *)

Lemma marker_sources_nonempty : CompareFiles.marker_sources <> [].
Proof. discriminate. Qed.

Lemma marker_tests_nonempty : CompareFiles.marker_tests <> [].
Proof. discriminate. Qed.

Lemma swift_to_cpp_name_none path :
  CompareFiles.swift_to_cpp_name path = None <-> has_marker path = false.
Proof.
  unfold CompareFiles.swift_to_cpp_name, has_marker.
  destruct (contains CompareFiles.marker_sources path); simpl.
  - split; discriminate.
  - destruct (contains CompareFiles.marker_tests path); split;
      (reflexivity || discriminate).
Qed.

(** On a path whose marker does not occur a second time behind its first
    occurrence, the directory is the parent of all that follows the
    marker. *)
Lemma directory_single_occurrence path marker rest :
  marker_of path = Some marker ->
  after_first marker path = Some rest ->
  contains marker rest = false ->
  option_map fst (CompareFiles.swift_to_cpp_name path) = Some (dirname rest).
Proof.
  unfold marker_of, CompareFiles.swift_to_cpp_name.
  destruct (contains CompareFiles.marker_sources path).
  - intros [= <-] Ha Hr. simpl. unfold str_split.
    now rewrite (split_second_single _ _ _ _ marker_sources_nonempty Ha Hr).
  - destruct (contains CompareFiles.marker_tests path); [|discriminate].
    intros [= <-] Ha Hr. simpl. unfold str_split.
    now rewrite (split_second_single _ _ _ _ marker_tests_nonempty Ha Hr).
Qed.

(** C4 at a path in which the marker occurs twice: the code takes the
    parent of the text BETWEEN the first two occurrences, [A], where the
    parent of all that follows the first occurrence is [A/B/Tests]. *)
Theorem C4_repeated_marker :
  CompareFiles.swift_to_cpp_name (lit "/p/Tests/A/B/Tests/C.swift")
    = Some (lit "A", lit "c") /\
  option_map dirname
    (after_first CompareFiles.marker_tests (lit "/p/Tests/A/B/Tests/C.swift"))
    = Some (lit "A/B/Tests").
Proof. split; reflexivity. Qed.

(** ** The comparison loop of compare_files.py *)

Lemma compare_fold hs ss : forall files mh ms,
  fold_left (CompareFiles.check hs ss) files (mh, ms) =
  (mh ++ flat_map (contribution hs) files,
   ms ++ flat_map (contribution ss) files).
Proof.
  induction files as [|f files IH]; intros mh ms; simpl.
  - now rewrite !app_nil_r.
  - unfold contribution, skipped.
    destruct (CompareFiles.swift_to_cpp_name f) as [[d n]|]; simpl.
    + destruct (negb (truthy d) || negb (truthy n)); simpl.
      * apply IH.
      * rewrite IH.
        destruct (CompareFiles.found n hs), (CompareFiles.found n ss); simpl;
          now rewrite <- ?app_assoc.
    + apply IH.
Qed.

Lemma compare_lists files hs ss :
  CompareFiles.compare files hs ss =
  (flat_map (contribution hs) files, flat_map (contribution ss) files).
Proof. unfold CompareFiles.compare. now rewrite compare_fold. Qed.

Lemma in_contribution cands f e :
  In e (contribution cands f) <->
  exists d n, e = (f, d, n) /\ CompareFiles.swift_to_cpp_name f = Some (d, n) /\
              skipped f = false /\ CompareFiles.found n cands = false.
Proof.
  unfold contribution.
  destruct (CompareFiles.swift_to_cpp_name f) as [[d n]|] eqn:E.
  - destruct (skipped f) eqn:S; simpl.
    + split; [tauto|]. intros (? & ? & _ & _ & ? & _). discriminate.
    + destruct (CompareFiles.found n cands) eqn:F; simpl.
      * split; [tauto|]. intros (d' & n' & _ & [= <- <-] & _ & ?). congruence.
      * split.
        -- intros [<- | []]. exists d, n. auto.
        -- intros (d' & n' & -> & [= <- <-] & _). now left.
  - simpl. split; [tauto|]. intros (? & ? & _ & ? & _). discriminate.
Qed.

Lemma in_missing cands files e :
  In e (flat_map (contribution cands) files) <->
  In (path_of e) files /\
  exists d n, e = (path_of e, d, n) /\
              CompareFiles.swift_to_cpp_name (path_of e) = Some (d, n) /\
              skipped (path_of e) = false /\
              CompareFiles.found n cands = false.
Proof.
  rewrite in_flat_map. split.
  - intros (f & Hf & He). apply in_contribution in He.
    destruct He as (d & n & -> & H). simpl. split; [exact Hf|]. now exists d, n.
  - intros (Hf & d & n & He & H). exists (path_of e). split; [exact Hf|].
    apply in_contribution. exists d, n. auto.
Qed.

Lemma found_false name cands :
  CompareFiles.found name cands = false <->
  forall c, In c cands -> contains name (lower (basename c)) = false.
Proof.
  unfold CompareFiles.found. induction cands as [|c cs IH]; simpl.
  - split; [intros _ ? [] | reflexivity].
  - rewrite orb_false_iff, IH. split.
    + intros [H1 H2] x [<- | Hx]; auto.
    + intros H. split; [apply H; now left | intros x Hx; apply H; now right].
Qed.

Lemma skipped_excluded f : skipped f = true <-> excluded f.
Proof.
  split.
  - intros Hs files hs ss e He Hf. subst f. rewrite compare_lists in He.
    simpl in He.
    destruct He as [He | He]; apply in_missing in He;
      destruct He as (_ & d & n & _ & _ & S & _); congruence.
  - intros Hex. destruct (skipped f) eqn:S; [reflexivity|]. exfalso.
    unfold skipped in S.
    destruct (CompareFiles.swift_to_cpp_name f) as [[d n]|] eqn:E;
      [|discriminate].
    apply (Hex [f] [] [] (f, d, n)); [|reflexivity].
    left. rewrite compare_lists. simpl. unfold contribution, skipped.
    rewrite E, S. simpl. now left.
Qed.

(** ** Running the programs *)

Lemma get_files_run directory extension fs w :
  get_files directory extension fs w =
  (Ok (scan fs directory extension),
   mkWorld (stdout w) (walked w ++ [directory])).
Proof. reflexivity. Qed.

Lemma for_each_print {A} (line : A -> str) (l : list A) fs w :
  for_each l (fun x => print (line x)) fs w =
  (Ok tt, mkWorld (stdout w ++ map line l) (walked w)).
Proof.
  revert w. induction l as [|x l IH]; intros w; simpl.
  - unfold ret. rewrite app_nil_r. now destruct w.
  - unfold bind, print at 1. rewrite IH. simpl. now rewrite <- app_assoc.
Qed.

Lemma compare_files_run fs argv :
  4 <= length argv ->
  run (CompareFiles.main argv) fs =
  (mkWorld (compare_files_report fs argv)
           ([nth 1 argv []; nth 2 argv []; nth 3 argv []]
            ++ match test_dir argv with Some d => [d] | None => [] end),
   Exited 0).
Proof.
  intros Hlen. unfold run, CompareFiles.main, compare_files_report, test_dir.
  apply Nat.ltb_ge in Hlen.
  unfold bind at 1. rewrite Hlen. unfold ret at 1.
  unfold bind at 1. rewrite get_files_run.
  unfold bind at 1. rewrite get_files_run.
  unfold bind at 1. rewrite get_files_run.
  unfold bind at 1.
  set (swift_files := scan fs (nth 1 argv []) (lit ".swift")).
  set (cpp_headers := scan fs (nth 2 argv []) (lit ".hpp")).
  set (cpp_sources := scan fs (nth 3 argv []) (lit ".cpp")).
  destruct (CompareFiles.compare swift_files cpp_headers cpp_sources)
    as [mh ms] eqn:C.
  assert (Tail : forall (tests : list str) w,
    (print (CompareFiles.total_line "Swift files" (length swift_files)) ;;
     print (CompareFiles.total_line "C++ headers" (length cpp_headers)) ;;
     print (CompareFiles.total_line "C++ sources" (length cpp_sources)) ;;
     print (CompareFiles.total_line "C++ tests" (length tests)) ;;
     print (CompareFiles.newline ++ lit "Missing C++ headers:") ;;
     for_each mh (fun e => print (CompareFiles.missing_line ".hpp" e)) ;;
     print (CompareFiles.newline ++ lit "Missing C++ sources:") ;;
     for_each ms (fun e => print (CompareFiles.missing_line ".cpp" e))) fs w =
    (Ok tt,
     mkWorld (stdout w ++
              [CompareFiles.total_line "Swift files" (length swift_files);
               CompareFiles.total_line "C++ headers" (length cpp_headers);
               CompareFiles.total_line "C++ sources" (length cpp_sources);
               CompareFiles.total_line "C++ tests" (length tests);
               CompareFiles.newline ++ lit "Missing C++ headers:"]
              ++ map (CompareFiles.missing_line ".hpp") mh
              ++ [CompareFiles.newline ++ lit "Missing C++ sources:"]
              ++ map (CompareFiles.missing_line ".cpp") ms)
             (walked w))).
  { intros tests w. unfold bind, print at 1 2 3 4 5.
    rewrite for_each_print. unfold print at 1. rewrite for_each_print.
    cbn [stdout walked]. now rewrite <- !app_assoc. }
  destruct (4 <? length argv).
  - destruct (truthy (nth 4 argv [])).
    + rewrite get_files_run, Tail. reflexivity.
    + unfold ret. rewrite Tail. reflexivity.
  - unfold ret. rewrite Tail. reflexivity.
Qed.

(** ** Which files compare_files.py reports *)

(** C2, as stated, takes every file whose path contains a marker to be
    compared.  A file directly in the marker directory has a marker, no
    candidate header contains its name (there is none), and still it is not
    reported: its relative directory is empty and the guard skips it. *)
Lemma C2_marker_directory_counterexample :
  has_marker root_level_file = true /\
  CompareFiles.swift_to_cpp_name root_level_file = Some ([], lit "foo") /\
  ~ (In (root_level_file, [], lit "foo")
        (fst (CompareFiles.compare [root_level_file] [] []))
     <-> forall h, In h [] -> contains (lit "foo") (lower (basename h)) = false).
Proof.
  repeat split; try reflexivity.
  intros [_ H]. apply (H (fun h (F : In h []) => match F with end)).
Qed.

(** C2, amended: in compare_files.py, a scanned file whose path contains a
    marker and whose derived relative directory and canonical name are not
    empty is reported as a missing header if and only if its canonical name
    is in the lowercased base name of no candidate header, and likewise,
    independently, as a missing source; so a file with canonical name
    get_block_header is not reported when a header with base name
    get_block_header_impl.hpp exists. *)
Theorem C2_missing_iff_no_candidate_contains :
  forall (swift_files cpp_headers cpp_sources : list str) (f d n : str),
    In f swift_files ->
    CompareFiles.swift_to_cpp_name f = Some (d, n) ->
    d <> [] -> n <> [] ->
    let (missing_headers, missing_sources) :=
      CompareFiles.compare swift_files cpp_headers cpp_sources in
    (In (f, d, n) missing_headers <->
       forall h, In h cpp_headers -> contains n (lower (basename h)) = false) /\
    (In (f, d, n) missing_sources <->
       forall c, In c cpp_sources -> contains n (lower (basename c)) = false) /\
    (n = lit "get_block_header" ->
     (exists h, In h cpp_headers /\ basename h = lit "get_block_header_impl.hpp") ->
     ~ In (f, d, n) missing_headers).
Proof.
  intros files hs ss f d n Hf E Hd Hn. rewrite compare_lists.
  assert (S : skipped f = false).
  { unfold skipped. rewrite E. destruct d, n; (contradiction || reflexivity). }
  assert (M : forall cands,
    In (f, d, n) (flat_map (contribution cands) files) <->
    forall c, In c cands -> contains n (lower (basename c)) = false).
  { intros cands. rewrite in_missing, <- found_false. simpl. split.
    - intros (_ & d' & n' & [= <- <-] & _ & _ & F). exact F.
    - intros F. split; [exact Hf|]. exists d, n. auto. }
  split; [apply M|]. split; [apply M|].
  intros -> (h & Hh & Bh) Hin.
  pose proof (proj1 (M hs) Hin h Hh) as C. rewrite Bh in C. discriminate.
Qed.

Lemma C2_missing_iff_no_candidate_contains_witness :
  (In nested_file [nested_file] /\
   CompareFiles.swift_to_cpp_name nested_file
     = Some (lit "Foo/Bar", lit "get_block_header") /\
   lit "Foo/Bar" <> [] /\ lit "get_block_header" <> []) /\
  let (missing_headers, missing_sources) :=
    CompareFiles.compare [nested_file] [impl_header] [] in
  (In (nested_file, lit "Foo/Bar", lit "get_block_header") missing_headers <->
     forall h, In h [impl_header] ->
       contains (lit "get_block_header") (lower (basename h)) = false) /\
  (In (nested_file, lit "Foo/Bar", lit "get_block_header") missing_sources <->
     forall c, In c [] ->
       contains (lit "get_block_header") (lower (basename c)) = false) /\
  (lit "get_block_header" = lit "get_block_header" ->
   (exists h, In h [impl_header] /\ basename h = lit "get_block_header_impl.hpp") ->
   ~ In (nested_file, lit "Foo/Bar", lit "get_block_header") missing_headers).
Proof.
  split.
  - repeat split; try discriminate. left; reflexivity.
  - apply (C2_missing_iff_no_candidate_contains
             [nested_file] [impl_header] [] nested_file
             (lit "Foo/Bar") (lit "get_block_header")).
    + left; reflexivity.
    + reflexivity.
    + discriminate.
    + discriminate.
Defined.

(** C3, as stated, has a file excluded only if its path contains neither
    marker.  The file directly in the marker directory contains one and is
    excluded all the same. *)
Lemma C3_marker_directory_counterexample :
  ~ (excluded root_level_file <-> has_marker root_level_file = false).
Proof.
  intros [H _]. assert (E : excluded root_level_file).
  { apply skipped_excluded. reflexivity. }
  specialize (H E). discriminate.
Qed.

Lemma skipped_cases f :
  skipped f = true <->
  has_marker f = false \/
  exists d n, CompareFiles.swift_to_cpp_name f = Some (d, n) /\ (d = [] \/ n = []).
Proof.
  unfold skipped. pose proof (swift_to_cpp_name_none f) as N.
  destruct (CompareFiles.swift_to_cpp_name f) as [[d n]|].
  - split.
    + intros H. right. exists d, n. split; [reflexivity|].
      destruct d; [now left|]. destruct n; [now right|]. discriminate.
    + intros [H | (d' & n' & [= <- <-] & [-> | ->])].
      * apply N in H. discriminate.
      * reflexivity.
      * simpl. apply orb_true_r.
  - split; [intros _; left; now apply N | reflexivity].
Qed.

(** C3, amended: in compare_files.py a file is excluded from both
    accumulations if and only if its path contains neither marker or its
    derived relative directory or canonical name is empty.  The program
    ends with status 0; its first line is [Total Swift files: ] followed by
    the length, in decimal, of the raw scan result, excluded files
    included; after the four counts it prints the two headings and one line
    for each entry of the two lists, and every such entry belongs to a
    scanned file that is not excluded. *)
Theorem C3_excluded_files :
  forall (fs : filesystem) (argv : list str),
    4 <= length argv ->
    let text := list_ascii_of_string in
    let decimal (n : nat) := text (NilEmpty.string_of_uint (Nat.to_uint n)) in
    let missing_line (ext : string) (e : CompareFiles.entry) :=
      text "  "%string ++ path_of e ++ text " -> "%string ++ snd (fst e) ++ text "/"%string
      ++ snd e ++ text ext in
    let swift_files := scan fs (nth 1 argv []) (lit ".swift") in
    let cpp_headers := scan fs (nth 2 argv []) (lit ".hpp") in
    let cpp_sources := scan fs (nth 3 argv []) (lit ".cpp") in
    let missing := CompareFiles.compare swift_files cpp_headers cpp_sources in
    let printed := stdout (fst (run (CompareFiles.main argv) fs)) in
    (forall f, excluded f <->
       has_marker f = false \/
       exists d n, CompareFiles.swift_to_cpp_name f = Some (d, n) /\
                   (d = [] \/ n = [])) /\
    run (CompareFiles.main argv) fs =
      (mkWorld (compare_files_report fs argv)
               ([nth 1 argv []; nth 2 argv []; nth 3 argv []]
                ++ match test_dir argv with Some d => [d] | None => [] end),
       Exited 0) /\
    hd_error printed =
      Some (text "Total Swift files: "%string ++ decimal (length swift_files)) /\
    skipn 4 printed =
      ["010"%char :: text "Missing C++ headers:"%string]
      ++ map (missing_line ".hpp"%string) (fst missing)
      ++ ["010"%char :: text "Missing C++ sources:"%string]
      ++ map (missing_line ".cpp"%string) (snd missing) /\
    (forall e, In e (fst missing ++ snd missing) ->
       In (path_of e) swift_files /\ ~ excluded (path_of e)).
Proof.
  intros fs argv Hlen. cbv zeta. rewrite compare_files_run by assumption.
  cbn [fst stdout]. split; [|split; [|split; [|split]]].
  - intros f. rewrite <- skipped_excluded. apply skipped_cases.
  - reflexivity.
  - reflexivity.
  - unfold compare_files_report. cbn [skipn app].
    assert (M : forall ext l,
      map (CompareFiles.missing_line ext) l =
      map (fun e : CompareFiles.entry =>
             list_ascii_of_string "  " ++ path_of e
             ++ list_ascii_of_string " -> " ++ snd (fst e)
             ++ list_ascii_of_string "/" ++ snd e
             ++ list_ascii_of_string ext) l)
      by (intros; apply map_ext; intros [[f d] n]; reflexivity).
    rewrite !M. reflexivity.
  - intros e He. rewrite compare_lists in He. cbn [fst snd] in He.
    apply in_app_iff in He. rewrite <- skipped_excluded.
    destruct He as [He | He]; apply in_missing in He;
      destruct He as (Hf & d & n & _ & _ & S & _);
      (split; [exact Hf | congruence]).
Qed.

Lemma C3_excluded_files_witness :
  (4 <= length audit_argv /\
   scan audit_fs (lit "/w") (lit ".swift") =
     [lit "/w/Sources/NeoSwift/Top.swift";
      lit "/w/Sources/NeoSwift/Core/Block.swift";
      lit "/w/Other/Util.swift"] /\
   has_marker (lit "/w/Other/Util.swift") = false /\
   skipped (lit "/w/Other/Util.swift") = true /\
   skipped (lit "/w/Sources/NeoSwift/Top.swift") = true) /\
  hd_error (stdout (fst (run (CompareFiles.main audit_argv) audit_fs))) =
    Some (list_ascii_of_string "Total Swift files: "%string
          ++ list_ascii_of_string
               (NilEmpty.string_of_uint
                  (Nat.to_uint
                     (length (scan audit_fs (nth 1 audit_argv []) (lit ".swift")))))) /\
  hd_error (stdout (fst (run (CompareFiles.main audit_argv) audit_fs))) =
    Some (list_ascii_of_string "Total Swift files: 3"%string) /\
  map path_of (fst (CompareFiles.compare
                      (scan audit_fs (lit "/w") (lit ".swift")) [] [])) =
    [lit "/w/Sources/NeoSwift/Core/Block.swift"].
Proof.
  split; [repeat split; simpl; lia|].
  split; [|split; reflexivity].
  apply (C3_excluded_files audit_fs audit_argv). simpl; lia.
Defined.

(** C10: a file of compare_files.py whose path contains a marker and whose
    derived relative directory is empty appears in neither list, whatever
    the three scanned lists are. *)
Theorem C10_marker_directory_file_skipped :
  forall (f : str),
    has_marker f = true ->
    option_map fst (CompareFiles.swift_to_cpp_name f) = Some [] ->
    forall (swift_files cpp_headers cpp_sources : list str) (e : CompareFiles.entry),
      In e (fst (CompareFiles.compare swift_files cpp_headers cpp_sources)) \/
      In e (snd (CompareFiles.compare swift_files cpp_headers cpp_sources)) ->
      path_of e <> f.
Proof.
  intros f _ Hd. apply skipped_excluded. unfold skipped.
  destruct (CompareFiles.swift_to_cpp_name f) as [[d n]|]; [|reflexivity].
  simpl in Hd. injection Hd as ->. reflexivity.
Qed.

Lemma C10_marker_directory_file_skipped_witness :
  (has_marker root_level_file = true /\
   option_map fst (CompareFiles.swift_to_cpp_name root_level_file) = Some []) /\
  forall e,
    In e (fst (CompareFiles.compare [root_level_file] [] [])) \/
    In e (snd (CompareFiles.compare [root_level_file] [] [])) ->
    path_of e <> root_level_file.
Proof.
  split; [split; reflexivity|].
  apply (C10_marker_directory_file_skipped root_level_file);
    reflexivity.
Defined.

(** C6: with fewer than four command-line arguments compare_files.py
    prints the usage line and nothing else, walks no directory and exits
    with status 1. *)
Theorem C6_usage_error :
  forall (fs : filesystem) (argv : list str),
    length argv < 4 ->
    run (CompareFiles.main argv) fs =
      (mkWorld [CompareFiles.usage] [], Exited 1).
Proof.
  intros fs argv Hlen. apply Nat.ltb_lt in Hlen.
  unfold run, CompareFiles.main. unfold bind at 1. rewrite Hlen.
  reflexivity.
Qed.

Lemma C6_usage_error_witness :
  length [lit "compare_files.py"; lit "/a"; lit "/b"] < 4 /\
  run (CompareFiles.main [lit "compare_files.py"; lit "/a"; lit "/b"]) empty_fs =
    (mkWorld [CompareFiles.usage] [], Exited 1).
Proof.
  split; [simpl; lia|].
  apply (C6_usage_error empty_fs [lit "compare_files.py"; lit "/a"; lit "/b"]).
  simpl; lia.
Defined.

(** ** The report of find_missing.py *)

Lemma find_missing_run fs :
  run FindMissing.main fs =
  (mkWorld (find_missing_report fs)
           [FindMissing.swift_dir; FindMissing.cpp_include_dir;
            FindMissing.cpp_src_dir],
   Exited 0).
Proof.
  unfold run, FindMissing.main, find_missing_report.
  unfold bind at 1. rewrite get_files_run.
  unfold bind at 1. rewrite get_files_run.
  unfold bind at 1. rewrite get_files_run.
  destruct (FindMissing.compare _ _ _) as [mh ms].
  unfold bind, print at 1. rewrite for_each_print.
  unfold print at 1. rewrite for_each_print. unfold print.
  cbn [stdout walked fst snd]. now rewrite <- !app_assoc.
Qed.

Lemma nth_error_enumerate_from {A} (l : list A) : forall a i,
  nth_error (combine (seq a (length l)) l) i =
  option_map (fun e => (a + i, e)) (nth_error l i).
Proof.
  induction l as [|x l IH]; intros a [|i]; simpl; try reflexivity.
  - now rewrite Nat.add_0_r.
  - rewrite IH. now rewrite Nat.add_succ_r.
Qed.

Lemma nth_error_enumerate {A} (l : list A) i :
  nth_error (enumerate l) i = option_map (fun e => (i, e)) (nth_error l i).
Proof. unfold enumerate. now rewrite nth_error_enumerate_from. Qed.

(** The line printed for the entry at index [i] below 10 carries [i + 1]. *)
Lemma rank_of_entry ext (missing : list FindMissing.entry) i e :
  i < 10 -> nth_error missing i = Some e ->
  nth_error (map (FindMissing.rank_line ext) (enumerate (firstn 10 missing))) i =
  Some (str_of_nat (i + 1) ++ lit ". " ++ basename (fst e) ++ lit " -> "
        ++ snd e ++ lit ext).
Proof.
  intros Hi He. rewrite nth_error_map, nth_error_enumerate, nth_error_firstn.
  apply Nat.ltb_lt in Hi. rewrite Hi, He. now destruct e.
Qed.

(** C9: find_missing.py prints, for each of the two lists, a heading and
    then one line for each of its first 10 entries at most, the line of the
    entry at index [i] being [i + 1] in decimal, a full stop, the base name
    of the file, an arrow, the canonical name and the extension; the last
    line reads [Total: H missing headers, S missing sources] with the
    lengths of the two full lists in decimal. *)
Theorem C9_top_ten_report :
  forall (fs : filesystem),
    let text := list_ascii_of_string in
    let decimal (n : nat) := text (NilEmpty.string_of_uint (Nat.to_uint n)) in
    let ranked (ext : string) (i : nat) (e : FindMissing.entry) :=
      decimal (i + 1) ++ text ". "%string ++ basename (fst e) ++ text " -> "%string
      ++ snd e ++ text ext in
    let swift_files := scan fs FindMissing.swift_dir (lit ".swift") in
    let cpp_headers := scan fs FindMissing.cpp_include_dir (lit ".hpp") in
    let cpp_sources := scan fs FindMissing.cpp_src_dir (lit ".cpp") in
    let (missing_headers, missing_sources) :=
      FindMissing.compare swift_files cpp_headers cpp_sources in
    exists header_lines source_lines : list str,
      stdout (fst (run FindMissing.main fs)) =
        [text "Top 10 Missing Headers:"%string] ++ header_lines
        ++ ["010"%char :: text "Top 10 Missing Sources:"%string] ++ source_lines
        ++ ["010"%char :: text "Total: "%string ++ decimal (length missing_headers)
            ++ text " missing headers, "%string ++ decimal (length missing_sources)
            ++ text " missing sources"%string] /\
      length header_lines = Nat.min 10 (length missing_headers) /\
      length source_lines = Nat.min 10 (length missing_sources) /\
      (forall i e, i < 10 -> nth_error missing_headers i = Some e ->
         nth_error header_lines i = Some (ranked ".hpp"%string i e)) /\
      (forall i e, i < 10 -> nth_error missing_sources i = Some e ->
         nth_error source_lines i = Some (ranked ".cpp"%string i e)).
Proof.
  intros fs. cbv zeta. rewrite find_missing_run. unfold find_missing_report.
  destruct (FindMissing.compare _ _ _) as [mh ms]. cbn [stdout fst snd].
  exists (map (FindMissing.rank_line ".hpp") (enumerate (firstn 10 mh))),
         (map (FindMissing.rank_line ".cpp") (enumerate (firstn 10 ms))).
  unfold enumerate.
  repeat split.
  - now rewrite length_map, length_combine, length_seq, Nat.min_id, length_firstn.
  - now rewrite length_map, length_combine, length_seq, Nat.min_id, length_firstn.
  - intros i e. apply rank_of_entry.
  - intros i e. apply rank_of_entry.
Qed.

(** ** A root directory that cannot be listed *)

Lemma walk_tree_unlistable top n :
  scandir (Some n) = Raise OSError -> walk_tree top n = [].
Proof.
  induction n as [|[] es|t IH]; simpl; try reflexivity; try discriminate.
  exact IH.
Qed.

Lemma scan_unlistable fs directory extension :
  scandir (fs directory) = Raise OSError -> scan fs directory extension = [].
Proof.
  unfold scan. destruct (fs directory) as [n|]; [|reflexivity].
  intros H. now rewrite (walk_tree_unlistable _ _ H).
Qed.

(** C7, as stated, has [get_files] fail on a root directory that does not
    exist.  On the file system without directories the traversal drops the
    error: [get_files] returns the empty list and find_missing.py goes on
    to print its report with both totals 0 and ends with status 0. *)
Lemma C7_missing_root_counterexample :
  scandir (empty_fs (lit "/nonexistent")) = Raise OSError /\
  get_files (lit "/nonexistent") (lit ".swift") empty_fs (mkWorld [] []) =
    (Ok [], mkWorld [] [lit "/nonexistent"]) /\
  run FindMissing.main empty_fs =
    (mkWorld [lit "Top 10 Missing Headers:";
              FindMissing.newline ++ lit "Top 10 Missing Sources:";
              FindMissing.summary_line 0 0]
             [FindMissing.swift_dir; FindMissing.cpp_include_dir;
              FindMissing.cpp_src_dir],
     Exited 0) /\
  (forall e, snd (run FindMissing.main empty_fs) <> Traceback e).
Proof. repeat split; try reflexivity. intros e. discriminate. Qed.

(** C7, amended: for a root directory that does not exist or cannot be
    listed, [get_files] raises nothing and returns the empty list, the
    traversal having dropped the error; both programs go on with that
    list and end with status 0. *)
Theorem C7_unlistable_root_yields_nothing :
  forall (fs : filesystem) (directory extension : str) (w : world),
    scandir (fs directory) = Raise OSError ->
    get_files directory extension fs w =
      (Ok [], mkWorld (stdout w) (walked w ++ [directory])) /\
    snd (run FindMissing.main fs) = Exited 0 /\
    (forall argv, 4 <= length argv ->
       snd (run (CompareFiles.main argv) fs) = Exited 0).
Proof.
  intros fs d ext w H. repeat split.
  - rewrite get_files_run. now rewrite (scan_unlistable _ _ _ H).
  - now rewrite find_missing_run.
  - intros argv Hlen. now rewrite compare_files_run.
Qed.

Lemma C7_unlistable_root_yields_nothing_witness :
  scandir (empty_fs (lit "/nonexistent")) = Raise OSError /\
  get_files (lit "/nonexistent") (lit ".swift") empty_fs (mkWorld [] []) =
    (Ok [], mkWorld (stdout (mkWorld [] []))
                    (walked (mkWorld [] []) ++ [lit "/nonexistent"])).
Proof.
  split; [reflexivity|].
  apply (C7_unlistable_root_yields_nothing
           empty_fs (lit "/nonexistent") (lit ".swift") (mkWorld [] [])).
  reflexivity.
Defined.

(** ** The comparison loop of find_missing.py *)

Lemma find_missing_fold hn sn : forall l pre mh ms,
  fold_left (FindMissing.check (pre ++ l) hn sn)
            (combine (seq (length pre) (length l))
                     (map FindMissing.swift_file_to_cpp_name l))
            (mh, ms) =
  (mh ++ flat_map (fun f =>
          if FindMissing.any_contains (FindMissing.swift_file_to_cpp_name f) hn
          then [] else [(f, FindMissing.swift_file_to_cpp_name f)]) l,
   ms ++ flat_map (fun f =>
          if FindMissing.any_contains (FindMissing.swift_file_to_cpp_name f) sn
          then [] else [(f, FindMissing.swift_file_to_cpp_name f)]) l).
Proof.
  induction l as [|f l IH]; intros pre mh ms.
  - simpl. now rewrite !app_nil_r.
  - cbn [length seq map combine fold_left flat_map]. unfold FindMissing.check at 2.
    rewrite nth_middle.
    replace (pre ++ f :: l) with ((pre ++ [f]) ++ l) by now rewrite <- app_assoc.
    replace (S (length pre)) with (length (pre ++ [f]))
      by (rewrite length_app; simpl; lia).
    rewrite IH.
    destruct (FindMissing.any_contains _ hn), (FindMissing.any_contains _ sn);
      simpl; now rewrite <- ?app_assoc.
Qed.

Lemma find_missing_lists files hs ss :
  FindMissing.compare files hs ss =
  (flat_map (raw_contribution hs) files, flat_map (raw_contribution ss) files).
Proof.
  unfold FindMissing.compare, enumerate. rewrite length_map.
  exact (find_missing_fold _ _ files [] [] []).
Qed.

(** find_missing.py reports a scanned file as a missing header exactly when
    no candidate's extension-stripped base name, taken as it is, contains
    the canonical name. *)
Lemma find_missing_reported files hs ss f :
  In f files ->
  (In (f, FindMissing.swift_file_to_cpp_name f)
      (fst (FindMissing.compare files hs ss)) <->
   forall h, In h hs ->
     contains (FindMissing.swift_file_to_cpp_name f) (FindMissing.stem h) = false).
Proof.
  intros Hf. rewrite find_missing_lists. cbn [fst]. rewrite in_flat_map.
  unfold raw_contribution, FindMissing.any_contains.
  assert (N : forall n,
    existsb (fun x => contains n x) (map FindMissing.stem hs) = false <->
    forall h, In h hs -> contains n (FindMissing.stem h) = false).
  { intros n. induction hs as [|h hs' IH]; simpl.
    - split; [intros _ ? [] | reflexivity].
    - rewrite orb_false_iff, IH. split.
      + intros [H1 H2] x [<- | Hx]; auto.
      + intros H. split; [apply H; now left | intros x Hx; apply H; now right]. }
  rewrite <- N. split.
  - intros (g & _ & Hg).
    destruct (existsb _ (map FindMissing.stem hs)) eqn:E in Hg; [destruct Hg|].
    destruct Hg as [[= <-] | []]. exact E.
  - intros E. exists f. split; [exact Hf|]. rewrite E. now left.
Qed.

(** ** Letter case of the candidates *)

Lemma is_sep_lower_char c : is_sep (lower_char c) = is_sep c.
Proof. by_cases_on_char c. Qed.

Lemma rbreak_lower s :
  rbreak is_sep (lower s) =
  option_map (fun ba => (lower (fst ba), lower (snd ba))) (rbreak is_sep s).
Proof.
  induction s as [|c t IH]; simpl; [reflexivity|].
  rewrite IH.
  destruct (rbreak is_sep t) as [[b a]|]; simpl; [reflexivity|].
  rewrite is_sep_lower_char. now destruct (is_sep c).
Qed.

Lemma basename_lower p : basename (lower p) = lower (basename p).
Proof.
  unfold basename, cut_at_last_sep. rewrite rbreak_lower.
  destruct (rbreak is_sep p) as [[b a]|]; simpl; [|reflexivity].
  now destruct a.
Qed.

(** In compare_files.py the outcome of the search does not depend on the
    letter case of the candidate paths. *)
Lemma found_case_invariant name (candidates candidates' : list str) :
  map lower candidates = map lower candidates' ->
  CompareFiles.found name candidates = CompareFiles.found name candidates'.
Proof.
  assert (F : forall cs, CompareFiles.found name cs =
                         existsb (fun c => contains name (basename c)) (map lower cs)).
  { induction cs as [|c cs IH]; simpl; [reflexivity|].
    now rewrite basename_lower, <- IH. }
  intros H. now rewrite !F, H.
Qed.

(** C5 in find_missing.py: the candidate names are compared as they are.
    With the header [foo.hpp] the file [Foo.swift] is matched; with the
    header [Foo.hpp], which differs in letter case only, it is reported
    missing.  compare_files.py finds it under either. *)
Theorem C5_candidate_case_find_missing :
  lower (lit "/i/Foo.hpp") = lower (lit "/i/foo.hpp") /\
  fst (FindMissing.compare [lit "/s/Foo.swift"] [lit "/i/foo.hpp"] []) = [] /\
  fst (FindMissing.compare [lit "/s/Foo.swift"] [lit "/i/Foo.hpp"] []) =
    [(lit "/s/Foo.swift", lit "foo")] /\
  CompareFiles.found (lit "foo") [lit "/i/foo.hpp"] = true /\
  CompareFiles.found (lit "foo") [lit "/i/Foo.hpp"] = true.
Proof. repeat split; reflexivity. Qed.

(** * Further properties of the name transform *)


Lemma length_insert_before r : forall s prev,
  length s <= length (insert_before r prev s) <= 2 * length s.
Proof.
  induction s as [|c t IH]; intros prev; simpl; [lia|].
  specialize (IH (Some c)). rewrite length_app.
  destruct (r prev c t); simpl; lia.
Qed.

Lemma lower_cons c s : lower (c :: s) = lower_char c :: lower s.
Proof. reflexivity. Qed.

Lemma lower_app a b : lower (a ++ b) = lower a ++ lower b.
Proof. apply map_app. Qed.

Lemma filter_insert_before r : forall s prev,
  filter not_underscore (insert_before r prev s) = filter not_underscore s.
Proof.
  induction s as [|c t IH]; intros prev; [reflexivity|].
  rewrite insert_before_cons, filter_app, IH.
  destruct (r prev c t); simpl; now destruct (not_underscore c).
Qed.

Lemma insert_before_all_upper : forall s prev,
  forallb is_upper s = true ->
  match prev with Some p => is_upper p = true | None => True end ->
  insert_before rule_ab prev s = s.
Proof.
  induction s as [|c t IH]; intros prev Hs Hp; [reflexivity|].
  simpl in Hs. apply andb_true_iff in Hs as [Hc Ht].
  rewrite insert_before_cons.
  assert (R : rule_ab prev c t = false).
  { unfold rule_ab. destruct prev as [p|]; [|reflexivity]. simpl.
    rewrite (upper_not_lower_or_digit _ Hp). simpl. rewrite orb_false_r.
    destruct t as [|l r]; simpl; [apply andb_false_r|].
    simpl in Ht. apply andb_true_iff in Ht as [Hl _].
    rewrite (upper_not_lower _ Hl). apply andb_false_r. }
  rewrite R. simpl. f_equal. now apply IH.
Qed.

Lemma last_insert_before r d : forall s prev,
  last (insert_before r prev s) d = last s d.
Proof.
  induction s as [|c t IH]; intros prev; [reflexivity|].
  rewrite insert_before_cons. specialize (IH (Some c)).
  destruct t as [|c' t'].
  - destruct (r prev c []); reflexivity.
  - assert (N : insert_before r (Some c) (c' :: t') <> []).
    { rewrite insert_before_cons. destruct (r (Some c) c' t'); discriminate. }
    destruct (insert_before r (Some c) (c' :: t')) as [|x xs] eqn:E;
      [contradiction|].
    destruct (r prev c (c' :: t')); simpl in *; exact IH.
Qed.

(** X1: the two substitutions act as one pass over the name: an underscore
    goes before a character exactly when that character is an uppercase
    letter with a character before it and either the one before is a
    lowercase letter or digit, or the one after is a lowercase letter and
    the one before is not a line feed; then everything is lowercased. *)
Theorem X1_camel_to_snake_by_position : forall s : str,
  camel_to_snake s =
  lower (insert_before
           (fun prev c t =>
              match prev with
              | Some p =>
                  is_upper c &&
                  (is_lower_or_digit p || (is_dot_char p && starts_lower t))
              | None => false
              end) None s).
Proof.
  intros s. rewrite camel_to_snake_one_pass. f_equal.
  generalize (@None ascii). induction s as [|c t IH]; intros prev; [reflexivity|].
  rewrite !insert_before_cons, IH. f_equal.
  unfold rule_ab, rule_a, rule_b. destruct prev as [p|]; [|reflexivity].
  destruct (is_upper c), (is_lower_or_digit p), (is_dot_char p),
    (starts_lower t); reflexivity.
Qed.

(** X2: a name made of uppercase letters only (an acronym) gets no
    underscore: it is lowercased and nothing else. *)
Theorem X2_all_capitals_only_lowercased : forall s : str,
  forallb is_upper s = true -> camel_to_snake s = lower s.
Proof.
  intros s Hs. rewrite camel_to_snake_one_pass.
  now rewrite insert_before_all_upper.
Qed.

Lemma X2_all_capitals_only_lowercased_witness :
  forallb is_upper (lit "NEO") = true /\
  camel_to_snake (lit "NEO") = lower (lit "NEO").
Proof.
  split; [reflexivity|].
  apply (X2_all_capitals_only_lowercased (lit "NEO")). reflexivity.
Defined.

(** X3: a name without any letter A-Z gets no underscore either: the
    transform lowercases it and nothing else. *)
Theorem X3_no_capitals_only_lowercased : forall s : str,
  no_upper s = true -> camel_to_snake s = lower s.
Proof.
  intros s Hs. rewrite camel_to_snake_one_pass.
  rewrite insert_before_id; [reflexivity | apply rule_ab_needs_upper | exact Hs].
Qed.

Lemma X3_no_capitals_only_lowercased_witness :
  no_upper (lit "get_block_header2") = true /\
  camel_to_snake (lit "get_block_header2") = lower (lit "get_block_header2").
Proof.
  split; [reflexivity|].
  apply (X3_no_capitals_only_lowercased (lit "get_block_header2")). reflexivity.
Defined.

Lemma insert_underscores_one_pass s :
  insert_underscores s = insert_before rule_ab None s.
Proof. apply two_passes_of_code. Qed.

(** X4: the two substitutions add underscores and nothing else: with all
    underscores removed, their result is the input with all underscores
    removed; the canonical name is that result lowercased. *)
Theorem X4_only_underscores_added : forall s : str,
  filter not_underscore (insert_underscores s) = filter not_underscore s /\
  camel_to_snake s = lower (insert_underscores s).
Proof.
  intros s. split; [|reflexivity].
  rewrite insert_underscores_one_pass. apply filter_insert_before.
Qed.


(** X6: the two substitutions put no underscore at either end: their
    result starts with the first character of the input and ends with its
    last character. *)
Theorem X6_ends_kept : forall (s : str) (d : ascii),
  hd_error (insert_underscores s) = hd_error s /\
  last (insert_underscores s) d = last s d.
Proof.
  intros s d. rewrite insert_underscores_one_pass. split.
  - destruct s as [|c t]; reflexivity.
  - apply last_insert_before.
Qed.

(** * Further properties of paths and of the scan *)

Lemma eqc_eq a b : eqc a b = true <-> a = b.
Proof. apply Ascii.eqb_eq. Qed.

Lemma startswith_inv : forall p s,
  startswith p s = true -> exists rest, s = p ++ rest.
Proof.
  induction p as [|a p IH]; intros s H; [now exists s|].
  destruct s as [|b s]; [discriminate|]. simpl in H.
  apply andb_true_iff in H as [E H]. apply eqc_eq in E. subst b.
  destruct (IH _ H) as [rest ->]. now exists rest.
Qed.

Lemma startswith_app_self p rest : startswith p (p ++ rest) = true.
Proof.
  induction p as [|a p IH]; [reflexivity|]. simpl.
  rewrite IH. unfold eqc. now rewrite Ascii.eqb_refl.
Qed.

Lemma startswith_iff p s :
  startswith p s = true <-> exists rest, s = p ++ rest.
Proof.
  split; [apply startswith_inv|]. intros [rest ->]. apply startswith_app_self.
Qed.

Lemma endswith_iff e s :
  endswith e s = true <-> exists front, s = front ++ e.
Proof.
  unfold endswith. rewrite startswith_iff. split.
  - intros [rest H]. exists (rev rest).
    rewrite <- (rev_involutive s), H, rev_app_distr. now rewrite rev_involutive.
  - intros [front ->]. exists (rev front). apply rev_app_distr.
Qed.

Lemma join_cases a b :
  join a b = b \/ join a b = a ++ b \/ join a b = a ++ "/"%char :: b.
Proof.
  unfold join. destruct (startswith ["/"%char] b); [now left|].
  destruct a as [|x a]; [right; now left|].
  destruct (endswith ["/"%char] (x :: a)); [right; now left | right; now right].
Qed.

Lemma join_endswith e a b : endswith e b = true -> endswith e (join a b) = true.
Proof.
  rewrite !endswith_iff. intros [front ->].
  destruct (join_cases a (front ++ e)) as [-> | [-> | ->]].
  - now exists front.
  - exists (a ++ front). now rewrite app_assoc.
  - exists (a ++ "/"%char :: front). now rewrite <- app_assoc.
Qed.

Lemma scan_endswith fs directory extension p :
  In p (scan fs directory extension) -> endswith extension p = true.
Proof.
  unfold scan. rewrite in_flat_map. intros ([[root dirs] files] & _ & Hp).
  apply in_map_iff in Hp as (file & <- & Hf).
  apply filter_In in Hf as [_ Hf]. now apply join_endswith.
Qed.

(** An induction principle that reaches the entries of a directory. *)
Lemma node_induction (P : node -> Prop) :
  P File ->
  (forall readable entries,
     Forall (fun e => P (snd e)) entries -> P (Dir readable entries)) ->
  (forall target, P target -> P (Link target)) ->
  forall n, P n.
Proof.
  intros HF HD HL. fix IH 1. intros [|readable entries|target];
    [exact HF | | apply HL, IH].
  apply HD. induction entries as [|[name child] entries IHe]; constructor.
  - apply IH.
  - exact IHe.
Qed.

Lemma slash_free_not_abs s : slash_free s = true -> startswith ["/"%char] s = false.
Proof.
  destruct s as [|c s]; [reflexivity|]. unfold slash_free. cbn [forallb startswith].
  intros H. apply andb_true_iff in H as [H _].
  destruct (eqc "/"%char c) eqn:E; [|reflexivity].
  apply eqc_eq in E. subst c. discriminate.
Qed.

Lemma join_under a b :
  slash_free b = true -> exists rest, join a b = a ++ rest.
Proof.
  intros H. unfold join. rewrite (slash_free_not_abs _ H).
  destruct a as [|x a]; [now exists b|].
  destruct (endswith ["/"%char] (x :: a)); [now exists b|].
  now exists ("/"%char :: b).
Qed.

Lemma names_where_slash_free p entries name :
  forallb (fun e => slash_free (fst e) && names_ok (snd e)) entries = true ->
  In name (names_where p entries) -> slash_free name = true.
Proof.
  intros H Hin. unfold names_where in Hin.
  apply in_map_iff in Hin as (e & <- & He). apply filter_In in He as [He _].
  rewrite forallb_forall in H. specialize (H e He).
  now apply andb_true_iff in H as [H _].
Qed.

(** Every item a walk yields has its root under [top] and holds file names
    free of [/]. *)
Lemma walk_tree_items : forall n top it,
  names_ok n = true -> In it (walk_tree top n) ->
  (exists rest, fst (fst it) = top ++ rest) /\
  forall file, In file (snd it) -> slash_free file = true.
Proof.
  induction n as [|readable entries IH|target IH] using node_induction;
    intros top it Hok Hin; [destruct Hin| |exact (IH _ _ Hok Hin)].
  destruct readable; [|destruct Hin].
  cbn [names_ok] in Hok.
  cbn [walk_tree] in Hin. destruct Hin as [<- | Hin].
  - split; [exists []; now rewrite app_nil_r|].
    intros file Hf. now apply (names_where_slash_free _ _ _ Hok Hf).
  - apply in_flat_map in Hin as (e & He & Hin).
    assert (Hd : exists r es, snd e = Dir r es)
      by (destruct (snd e) as [|r es|t]; [destruct Hin | eauto | destruct Hin]).
    destruct Hd as (r & es & Hd). rewrite Hd in Hin. rewrite <- Hd in Hin.
    rewrite Forall_forall in IH. rewrite forallb_forall in Hok.
    pose proof (Hok e He) as Hoke. apply andb_true_iff in Hoke as [Hname Hchild].
    destruct (IH e He _ _ Hchild Hin) as [[rest Hr] Hfiles].
    split; [|exact Hfiles].
    destruct (join_under top (fst e) Hname) as [r' Hj].
    exists (r' ++ rest). now rewrite Hr, Hj, app_assoc.
Qed.

Lemma rbreak_none p s : forallb (fun c => negb (p c)) s = true -> rbreak p s = None.
Proof.
  induction s as [|c s IH]; [reflexivity|]. simpl. intros H.
  apply andb_true_iff in H as [Hc Hs]. rewrite (IH Hs).
  apply negb_true_iff in Hc. now rewrite Hc.
Qed.

Lemma rbreak_app p e : forallb (fun c => negb (p c)) e = true ->
  forall s, rbreak p (s ++ e) =
            match rbreak p s with
            | Some (b, a) => Some (b, a ++ e)
            | None => None
            end.
Proof.
  intros He. induction s as [|c s IH]; simpl.
  - now apply rbreak_none.
  - rewrite IH. destruct (rbreak p s) as [[b a]|]; [reflexivity|].
    now destruct (p c).
Qed.

Lemma rbreak_starts p : forall s b a,
  rbreak p s = Some (b, a) -> exists c r, a = c :: r.
Proof.
  induction s as [|c s IH]; intros b a H; [discriminate|]. simpl in H.
  destruct (rbreak p s) as [[b' a']|] eqn:E.
  - injection H as <- <-. now apply (IH b').
  - destruct (p c); [|discriminate]. injection H as <- <-. eauto.
Qed.

(** The base name of a path that ends with a suffix free of [/] ends with
    that suffix. *)
Lemma basename_app s e :
  slash_free e = true -> basename (s ++ e) = basename s ++ e.
Proof.
  intros He. unfold basename, cut_at_last_sep. rewrite (rbreak_app _ _ He).
  destruct (rbreak is_sep s) as [[b a]|] eqn:E; [|reflexivity].
  destruct (rbreak_starts _ _ _ _ E) as (c & r & ->). reflexivity.
Qed.

Lemma splitext_root_nil p : fst (splitext p) = [] -> p = [].
Proof.
  unfold splitext. destruct (cut_at_last_sep p) as [head tail].
  destruct (rbreak is_extsep tail) as [[root ext]|]; [|exact id].
  destruct (existsb (fun c => negb (is_extsep c)) root) eqn:E; [|exact id].
  simpl. intros H. apply app_eq_nil in H as [_ ->]. discriminate.
Qed.

Lemma camel_to_snake_nil s : camel_to_snake s = [] -> s = [].
Proof.
  rewrite camel_to_snake_one_pass. intros H.
  apply (f_equal (@length ascii)) in H. unfold lower in H.
  rewrite length_map in H.
  pose proof (length_insert_before rule_ab s None) as B.
  apply length_zero_iff_nil. simpl in H. lia.
Qed.

(** X7: where a marker occurs in the path, splitting the path at the
    marker gives at least two pieces, so the subscript [[1]] of
    [swift_to_cpp_name] never fails. *)
Theorem X7_subscript_in_range : forall path : str,
  (contains CompareFiles.marker_sources path = true ->
   2 <= length (str_split CompareFiles.marker_sources path)) /\
  (contains CompareFiles.marker_tests path = true ->
   2 <= length (str_split CompareFiles.marker_tests path)).
Proof.
  intros path. split; intros H; apply split_has_second;
    (assumption || discriminate).
Qed.

(** X8: on a path in which the marker in force (the sources marker if it
    occurs, else the tests marker) does not occur again behind its first
    occurrence, the directory returned is the parent directory of all the
    text behind the marker. *)
Theorem X8_directory_after_marker : forall path marker rest : str,
  marker_of path = Some marker ->
  after_first marker path = Some rest ->
  contains marker rest = false ->
  exists name,
    CompareFiles.swift_to_cpp_name path = Some (dirname rest, name).
Proof.
  intros path marker rest Hm Ha Hr.
  pose proof (directory_single_occurrence _ _ _ Hm Ha Hr) as H.
  destruct (CompareFiles.swift_to_cpp_name path) as [[d n]|]; [|discriminate].
  simpl in H. injection H as ->. now exists n.
Qed.

Lemma X8_directory_after_marker_witness :
  (marker_of nested_file = Some CompareFiles.marker_sources /\
   after_first CompareFiles.marker_sources nested_file
     = Some (lit "Foo/Bar/GetBlockHeader.swift") /\
   contains CompareFiles.marker_sources (lit "Foo/Bar/GetBlockHeader.swift")
     = false) /\
  exists name,
    CompareFiles.swift_to_cpp_name nested_file
      = Some (dirname (lit "Foo/Bar/GetBlockHeader.swift"), name).
Proof.
  split; [repeat split|].
  apply (X8_directory_after_marker nested_file CompareFiles.marker_sources
           (lit "Foo/Bar/GetBlockHeader.swift")); reflexivity.
Defined.

(** X9: every path [get_files] returns ends with the extension asked for,
    whatever the file system holds. *)
Theorem X9_scanned_paths_end_with_extension :
  forall (fs : filesystem) (directory extension : str) (w w' : world)
         (files : list str),
    get_files directory extension fs w = (Ok files, w') ->
    Forall (fun p => endswith extension p = true) files.
Proof.
  intros fs d ext w w' files H. rewrite get_files_run in H.
  injection H as <- _. apply Forall_forall. intros p. apply scan_endswith.
Qed.

Lemma X9_scanned_paths_end_with_extension_witness :
  get_files (lit "/r") (lit ".swift") sample_fs (mkWorld [] []) =
    (Ok [lit "/r/Top.swift"; lit "/r/Foo/GetBlockHeader.swift"],
     mkWorld [] [lit "/r"]) /\
  Forall (fun p => endswith (lit ".swift") p = true)
         [lit "/r/Top.swift"; lit "/r/Foo/GetBlockHeader.swift"].
Proof.
  split; [reflexivity|].
  apply (X9_scanned_paths_end_with_extension sample_fs (lit "/r") (lit ".swift")
           (mkWorld [] []) (mkWorld [] [lit "/r"])).
  reflexivity.
Defined.

(** X10: in a tree whose entry names are free of [/], every path
    [get_files] returns lies under the directory it was asked to scan: the
    path starts with that directory's path. *)
Theorem X10_scanned_paths_under_root :
  forall (fs : filesystem) (directory extension : str) (n : node) (p : str),
    fs directory = Some n -> names_ok n = true ->
    In p (scan fs directory extension) ->
    startswith directory p = true.
Proof.
  intros fs d ext n p Hfs Hok Hin. unfold scan in Hin. rewrite Hfs in Hin.
  apply in_flat_map in Hin as ([[root dirs] files] & Hit & Hp).
  apply in_map_iff in Hp as (file & <- & Hf). apply filter_In in Hf as [Hf _].
  destruct (walk_tree_items _ _ _ Hok Hit) as [[rest Hr] Hfiles].
  simpl in Hr, Hfiles. destruct (join_under root file (Hfiles _ Hf)) as [r' ->].
  apply startswith_iff. exists (rest ++ r'). now rewrite Hr, app_assoc.
Qed.

Lemma X10_scanned_paths_under_root_witness :
  (sample_fs (lit "/r") = Some sample_tree /\ names_ok sample_tree = true /\
   In (lit "/r/Foo/GetBlockHeader.swift") (scan sample_fs (lit "/r") (lit ".swift"))) /\
  startswith (lit "/r") (lit "/r/Foo/GetBlockHeader.swift") = true.
Proof.
  split.
  - repeat split. right; left; reflexivity.
  - apply (X10_scanned_paths_under_root sample_fs (lit "/r") (lit ".swift")
             sample_tree (lit "/r/Foo/GetBlockHeader.swift")).
    + reflexivity.
    + reflexivity.
    + right; left; reflexivity.
Defined.

(** X11: a path that ends with [.swift], as every scanned source file does,
    has a canonical name that is not empty; compare_files.py therefore
    skips it exactly when its path has no marker or its relative directory
    is empty. *)
Theorem X11_scanned_file_has_a_name : forall path : str,
  endswith (lit ".swift") path = true ->
  FindMissing.swift_file_to_cpp_name path <> [] /\
  (skipped path = true <->
   has_marker path = false \/
   option_map fst (CompareFiles.swift_to_cpp_name path) = Some []).
Proof.
  intros path H. apply endswith_iff in H as [front ->].
  assert (N : FindMissing.swift_file_to_cpp_name (front ++ lit ".swift") <> []).
  { unfold FindMissing.swift_file_to_cpp_name. intros E.
    apply camel_to_snake_nil, splitext_root_nil in E.
    rewrite basename_app in E by reflexivity.
    apply app_eq_nil in E as [_ E]. discriminate. }
  split; [exact N|].
  rewrite skipped_cases. split.
  - intros [Hm | (d & n & E & [-> | ->])]; [now left | right; now rewrite E |].
    exfalso. apply N. unfold CompareFiles.swift_to_cpp_name in E.
    unfold FindMissing.swift_file_to_cpp_name.
    destruct (contains CompareFiles.marker_sources _);
      [|destruct (contains CompareFiles.marker_tests _)]; congruence.
  - intros [Hm | Hd]; [now left|]. right.
    destruct (CompareFiles.swift_to_cpp_name _) as [[d n]|]; [|discriminate].
    simpl in Hd. injection Hd as ->. exists [], n. auto.
Qed.

Lemma X11_scanned_file_has_a_name_witness :
  endswith (lit ".swift") root_level_file = true /\
  FindMissing.swift_file_to_cpp_name root_level_file <> [].
Proof.
  split; [reflexivity|].
  apply (X11_scanned_file_has_a_name root_level_file). reflexivity.
Defined.

(** * Further properties of the comparison *)

Lemma contains_iff a : forall s,
  contains a s = true <-> exists pre post, s = pre ++ a ++ post.
Proof.
  induction s as [|c t IH].
  - simpl. rewrite orb_false_r, startswith_iff. split.
    + intros [rest H]. now exists [], rest.
    + intros (pre & post & H). destruct pre; [now exists post|discriminate].
  - cbn [contains]. rewrite orb_true_iff, IH, startswith_iff. split.
    + intros [[rest H] | (pre & post & H)].
      * now exists [], rest.
      * exists (c :: pre), post. now rewrite H.
    + intros ([|x pre] & post & H).
      * left. now exists post.
      * right. injection H as _ H. now exists pre, post.
Qed.

Lemma contains_trans a b c :
  contains a b = true -> contains b c = true -> contains a c = true.
Proof.
  rewrite !contains_iff. intros (p1 & q1 & ->) (p2 & q2 & ->).
  exists (p2 ++ p1), (q1 ++ q2). now rewrite <- !app_assoc.
Qed.

Lemma found_true name cands :
  CompareFiles.found name cands = true <->
  exists c, In c cands /\ contains name (lower (basename c)) = true.
Proof. unfold CompareFiles.found. apply existsb_exists. Qed.

Lemma name_of_compared f d n :
  CompareFiles.swift_to_cpp_name f = Some (d, n) ->
  n = FindMissing.swift_file_to_cpp_name f.
Proof.
  unfold CompareFiles.swift_to_cpp_name, FindMissing.swift_file_to_cpp_name.
  destruct (contains CompareFiles.marker_sources f);
    [|destruct (contains CompareFiles.marker_tests f)]; congruence.
Qed.

Lemma contribution_paths cands files :
  map path_of (flat_map (contribution cands) files) =
  filter (unmatched cands) files.
Proof.
  induction files as [|f files IH]; [reflexivity|].
  cbn [flat_map filter]. rewrite map_app, IH.
  unfold contribution, unmatched.
  destruct (CompareFiles.swift_to_cpp_name f) as [[d n]|] eqn:E.
  - rewrite <- (name_of_compared _ _ _ E).
    destruct (skipped f); [reflexivity|].
    destruct (CompareFiles.found n cands); reflexivity.
  - unfold skipped. rewrite E. reflexivity.
Qed.

Lemma splitext_app p : fst (splitext p) ++ snd (splitext p) = p.
Proof.
  unfold splitext. destruct (cut_at_last_sep p) as [head tail] eqn:C.
  assert (Hp : p = head ++ tail).
  { unfold cut_at_last_sep in C.
    destruct (rbreak is_sep p) as [[b a]|] eqn:E.
    - injection C as <- <-.
      assert (G : forall s b a, rbreak is_sep s = Some (b, a) ->
                  s = (b ++ ["/"%char]) ++ tl a).
      { clear. induction s as [|c s IH]; intros b a H; [discriminate|].
        simpl in H. destruct (rbreak is_sep s) as [[b' a']|].
        - injection H as <- <-. simpl. f_equal. now apply IH.
        - destruct (is_sep c) eqn:S; [|discriminate]. injection H as <- <-.
          apply eqc_eq in S. now subst c. }
      now apply G.
    - now injection C as <- <-. }
  assert (R : forall s root ext, rbreak is_extsep s = Some (root, ext) ->
              s = root ++ ext).
  { clear. induction s as [|c s IH]; intros b a H; [discriminate|].
    simpl in H. destruct (rbreak is_extsep s) as [[b' a']|].
    - injection H as <- <-. simpl. f_equal. now apply IH.
    - destruct (is_extsep c); [|discriminate]. now injection H as <- <-. }
  destruct (rbreak is_extsep tail) as [[root ext]|] eqn:E;
    [|simpl; apply app_nil_r].
  destruct (existsb _ root); simpl; [|apply app_nil_r].
  rewrite (R _ _ _ E) in Hp. now rewrite Hp, app_assoc.
Qed.

Lemma canonical_name_lower f :
  lower (FindMissing.swift_file_to_cpp_name f) = FindMissing.swift_file_to_cpp_name f.
Proof. unfold FindMissing.swift_file_to_cpp_name, camel_to_snake. apply lower_idem. Qed.

(** What find_missing.py counts as a match, compare_files.py does too. *)
Lemma raw_match_is_match f cands :
  FindMissing.any_contains (FindMissing.swift_file_to_cpp_name f)
                           (map FindMissing.stem cands) = true ->
  CompareFiles.found (FindMissing.swift_file_to_cpp_name f) cands = true.
Proof.
  unfold FindMissing.any_contains. rewrite existsb_exists, found_true.
  intros (x & Hx & Hc). apply in_map_iff in Hx as (c & <- & Hin).
  exists c. split; [exact Hin|].
  apply contains_iff in Hc as (pre & post & Hs). apply contains_iff.
  unfold FindMissing.stem in Hs.
  pose proof (splitext_app (basename c)) as A. rewrite Hs in A.
  destruct (splitext (basename c)) as [root ext]. cbn [snd] in A.
  exists (lower pre), (lower (post ++ ext)).
  rewrite <- A, !lower_app, canonical_name_lower.
  now rewrite <- !app_assoc.
Qed.

(** X12: in compare_files.py each missing list holds, in scan order and as
    often as they were scanned, exactly the files that pass the guard and
    find no candidate; every entry carries the directory and name that
    [swift_to_cpp_name] gives for its file. *)
Theorem X12_missing_lists_in_scan_order :
  forall (swift_files cpp_headers cpp_sources : list str),
    let (missing_headers, missing_sources) :=
      CompareFiles.compare swift_files cpp_headers cpp_sources in
    map path_of missing_headers = filter (unmatched cpp_headers) swift_files /\
    map path_of missing_sources = filter (unmatched cpp_sources) swift_files /\
    Forall (fun e => CompareFiles.swift_to_cpp_name (path_of e)
                     = Some (snd (fst e), snd e))
           (missing_headers ++ missing_sources).
Proof.
  intros files hs ss. rewrite compare_lists.
  split; [apply contribution_paths|]. split; [apply contribution_paths|].
  apply Forall_forall. intros e He. apply in_app_iff in He.
  destruct He as [He | He]; apply in_missing in He;
    destruct He as (_ & d & n & -> & E & _); exact E.
Qed.

(** X13: the two lists of compare_files.py are computed alike and apart:
    the missing headers do not depend on the sources scanned, and the
    missing sources are what the missing headers would be with the sources
    given as headers. *)
Theorem X13_lists_independent :
  forall (swift_files cpp_headers cpp_sources other : list str),
    fst (CompareFiles.compare swift_files cpp_headers cpp_sources) =
    fst (CompareFiles.compare swift_files cpp_headers other) /\
    snd (CompareFiles.compare swift_files cpp_headers cpp_sources) =
    fst (CompareFiles.compare swift_files cpp_sources other).
Proof. intros. now rewrite !compare_lists. Qed.

(** X14: more candidates never make more files missing: an entry missing
    among the headers [more] is missing among any headers all found in
    [more]. *)
Theorem X14_candidates_only_remove :
  forall (swift_files fewer more cpp_sources : list str) (e : CompareFiles.entry),
    (forall h, In h fewer -> In h more) ->
    In e (fst (CompareFiles.compare swift_files more cpp_sources)) ->
    In e (fst (CompareFiles.compare swift_files fewer cpp_sources)).
Proof.
  intros files fewer more ss e Hsub. rewrite !compare_lists. cbn [fst].
  rewrite !in_missing.
  intros (Hf & d & n & He & E & S & F). split; [exact Hf|].
  exists d, n. repeat split; try assumption.
  rewrite found_false in *. intros c Hc. apply F, Hsub, Hc.
Qed.

Lemma X14_candidates_only_remove_witness :
  ((forall h, In h [] -> In h [lit "/inc/other.hpp"]) /\
   In (short_named_file, lit "Core", lit "block")
      (fst (CompareFiles.compare [short_named_file] [lit "/inc/other.hpp"] []))) /\
  In (short_named_file, lit "Core", lit "block")
     (fst (CompareFiles.compare [short_named_file] [] [])).
Proof.
  split; [split; [intros h [] | left; reflexivity]|].
  apply (X14_candidates_only_remove [short_named_file] []
           [lit "/inc/other.hpp"] [] (short_named_file, lit "Core", lit "block")).
  - intros h [].
  - left; reflexivity.
Defined.

(** X15: compare_files.py does not see the letter case of the candidate
    paths: two scans that agree once lowercased give the same lists. *)
Theorem X15_candidate_case_ignored :
  forall (swift_files cpp_headers cpp_headers' cpp_sources cpp_sources' : list str),
    map lower cpp_headers = map lower cpp_headers' ->
    map lower cpp_sources = map lower cpp_sources' ->
    CompareFiles.compare swift_files cpp_headers cpp_sources =
    CompareFiles.compare swift_files cpp_headers' cpp_sources'.
Proof.
  intros files hs hs' ss ss' Hh Hs. rewrite !compare_lists.
  assert (E : forall c c', map lower c = map lower c' ->
              forall f, contribution c f = contribution c' f).
  { intros c c' H f. unfold contribution.
    destruct (CompareFiles.swift_to_cpp_name f) as [[d n]|]; [|reflexivity].
    now rewrite (found_case_invariant n c c' H). }
  f_equal; apply flat_map_ext; auto.
Qed.

Lemma X15_candidate_case_ignored_witness :
  (map lower [lit "/inc/Get_Block_Header.HPP"] = map lower [lit "/inc/get_block_header.hpp"] /\
   map lower (@nil str) = map lower []) /\
  CompareFiles.compare [nested_file] [lit "/inc/Get_Block_Header.HPP"] [] =
  CompareFiles.compare [nested_file] [lit "/inc/get_block_header.hpp"] [].
Proof.
  split; [split; reflexivity|].
  apply (X15_candidate_case_ignored [nested_file]
           [lit "/inc/Get_Block_Header.HPP"] [lit "/inc/get_block_header.hpp"]
           [] []); reflexivity.
Defined.

(** X16: a file whose exact counterpart exists is never reported by
    compare_files.py: if some header's base name, lowercased, is the
    canonical name followed by anything (an extension), the file is not
    among the missing headers. *)
Theorem X16_exact_counterpart_found :
  forall (swift_files cpp_headers cpp_sources : list str) (f d n h ext : str),
    CompareFiles.swift_to_cpp_name f = Some (d, n) ->
    In h cpp_headers ->
    lower (basename h) = n ++ ext ->
    ~ In (f, d, n) (fst (CompareFiles.compare swift_files cpp_headers cpp_sources)).
Proof.
  intros files hs ss f d n h ext E Hh Hb. rewrite compare_lists. cbn [fst].
  rewrite in_missing. intros (_ & d' & n' & [= <- <-] & _ & _ & F).
  rewrite found_false in F. specialize (F h Hh). rewrite Hb in F.
  assert (T : contains n (n ++ ext) = true)
    by (apply contains_iff; now exists [], ext).
  congruence.
Qed.

Lemma X16_exact_counterpart_found_witness :
  (CompareFiles.swift_to_cpp_name nested_file
     = Some (lit "Foo/Bar", lit "get_block_header") /\
   In (lit "/inc/Get_Block_Header.hpp") [lit "/inc/Get_Block_Header.hpp"] /\
   lower (basename (lit "/inc/Get_Block_Header.hpp"))
     = lit "get_block_header" ++ lit ".hpp") /\
  ~ In (nested_file, lit "Foo/Bar", lit "get_block_header")
       (fst (CompareFiles.compare [nested_file] [lit "/inc/Get_Block_Header.hpp"] [])).
Proof.
  split; [repeat split; left; reflexivity|].
  apply (X16_exact_counterpart_found [nested_file]
           [lit "/inc/Get_Block_Header.hpp"] [] nested_file (lit "Foo/Bar")
           (lit "get_block_header") (lit "/inc/Get_Block_Header.hpp") (lit ".hpp")).
  - reflexivity.
  - left; reflexivity.
  - reflexivity.
Defined.

(** X17: short names ride on long ones: if the canonical name of one file
    lies inside the canonical name of another compared file that is not
    reported as a missing header, the first is not reported either. *)
Theorem X17_name_inside_a_found_name :
  forall (swift_files cpp_headers cpp_sources : list str) (f d n f' d' n' : str),
    CompareFiles.swift_to_cpp_name f = Some (d, n) ->
    CompareFiles.swift_to_cpp_name f' = Some (d', n') ->
    In f' swift_files -> skipped f' = false ->
    contains n n' = true ->
    ~ In (f', d', n') (fst (CompareFiles.compare swift_files cpp_headers cpp_sources)) ->
    ~ In (f, d, n) (fst (CompareFiles.compare swift_files cpp_headers cpp_sources)).
Proof.
  intros files hs ss f d n f' d' n' E E' Hf' S' Hsub Hnot.
  rewrite compare_lists in *. cbn [fst] in *. rewrite in_missing in *.
  intros (_ & d0 & n0 & [= <- <-] & _ & _ & F).
  destruct (CompareFiles.found n' hs) eqn:F'.
  - apply found_true in F' as (c & Hc & Hcc).
    rewrite found_false in F. specialize (F c Hc).
    rewrite (contains_trans _ _ _ Hsub Hcc) in F. discriminate.
  - apply Hnot. split; [exact Hf'|]. exists d', n'. auto.
Qed.

Lemma X17_name_inside_a_found_name_witness :
  (CompareFiles.swift_to_cpp_name short_named_file = Some (lit "Core", lit "block") /\
   CompareFiles.swift_to_cpp_name nested_file
     = Some (lit "Foo/Bar", lit "get_block_header") /\
   In nested_file [short_named_file; nested_file] /\
   skipped nested_file = false /\
   contains (lit "block") (lit "get_block_header") = true) /\
  ~ In (short_named_file, lit "Core", lit "block")
       (fst (CompareFiles.compare [short_named_file; nested_file] [impl_header] [])).
Proof.
  split; [repeat split; right; left; reflexivity|].
  apply (X17_name_inside_a_found_name [short_named_file; nested_file]
           [impl_header] [] short_named_file (lit "Core") (lit "block")
           nested_file (lit "Foo/Bar") (lit "get_block_header")).
  - reflexivity.
  - reflexivity.
  - right; left; reflexivity.
  - reflexivity.
  - reflexivity.
  - vm_compute. tauto.
Defined.

(** * Further properties of find_missing.py and of the two programs *)

Lemma raw_contribution_filter cands files :
  flat_map (raw_contribution cands) files =
  map (fun f => (f, FindMissing.swift_file_to_cpp_name f))
      (filter (raw_unmatched cands) files).
Proof.
  induction files as [|f files IH]; [reflexivity|].
  cbn [flat_map filter]. rewrite IH. unfold raw_contribution, raw_unmatched.
  now destruct (FindMissing.any_contains _ _).
Qed.

(** X18: find_missing.py skips no file: each of its lists holds, in scan
    order, exactly the scanned files for which no candidate's
    extension-stripped base name contains the canonical name, each paired
    with its own canonical name. *)
Theorem X18_find_missing_lists :
  forall (swift_files cpp_headers cpp_sources : list str),
    FindMissing.compare swift_files cpp_headers cpp_sources =
    (map (fun f => (f, FindMissing.swift_file_to_cpp_name f))
         (filter (raw_unmatched cpp_headers) swift_files),
     map (fun f => (f, FindMissing.swift_file_to_cpp_name f))
         (filter (raw_unmatched cpp_sources) swift_files)).
Proof.
  intros. rewrite find_missing_lists. now rewrite !raw_contribution_filter.
Qed.

(** X19: with no translated file at all, find_missing.py reports every
    scanned file in both lists, in scan order, and compare_files.py reports
    in both lists every file its guard lets through. *)
Theorem X19_empty_translated_trees : forall swift_files : list str,
  FindMissing.compare swift_files [] [] =
    (map (fun f => (f, FindMissing.swift_file_to_cpp_name f)) swift_files,
     map (fun f => (f, FindMissing.swift_file_to_cpp_name f)) swift_files) /\
  map path_of (fst (CompareFiles.compare swift_files [] [])) =
    filter (fun f => negb (skipped f)) swift_files /\
  snd (CompareFiles.compare swift_files [] []) =
    fst (CompareFiles.compare swift_files [] []).
Proof.
  intros files. split; [|split].
  - rewrite find_missing_lists, !raw_contribution_filter.
    assert (F : filter (raw_unmatched []) files = files).
    { induction files as [|f l IH]; [reflexivity|]. cbn. now rewrite IH. }
    now rewrite F.
  - rewrite compare_lists. cbn [fst]. rewrite contribution_paths.
    apply filter_ext. intros f. unfold unmatched. simpl. apply andb_true_r.
  - now rewrite compare_lists.
Qed.

(** X20: compare_files.py matches at least what find_missing.py matches:
    an entry compare_files.py reports as a missing header is, for the same
    three scans, reported by find_missing.py as well. *)
Theorem X20_compare_files_reports_less :
  forall (swift_files cpp_headers cpp_sources : list str) (e : CompareFiles.entry),
    In e (fst (CompareFiles.compare swift_files cpp_headers cpp_sources)) ->
    In (path_of e, snd e)
       (fst (FindMissing.compare swift_files cpp_headers cpp_sources)).
Proof.
  intros files hs ss [[f d] n]. rewrite compare_lists, find_missing_lists.
  cbn [fst snd path_of]. rewrite in_missing, raw_contribution_filter, in_map_iff.
  cbn [fst snd path_of]. intros (Hf & d' & n' & [= <- <-] & E & _ & F).
  pose proof (name_of_compared _ _ _ E) as N. subst n.
  exists f. split; [reflexivity|]. apply filter_In. split; [exact Hf|].
  unfold raw_unmatched.
  destruct (FindMissing.any_contains _ _) eqn:A; [|reflexivity].
  apply raw_match_is_match in A. congruence.
Qed.

Lemma X20_compare_files_reports_less_witness :
  In (short_named_file, lit "Core", lit "block")
     (fst (CompareFiles.compare [short_named_file] [lit "/inc/other.hpp"] [])) /\
  In (short_named_file, lit "block")
     (fst (FindMissing.compare [short_named_file] [lit "/inc/other.hpp"] [])).
Proof.
  split; [left; reflexivity|].
  apply (X20_compare_files_reports_less [short_named_file]
           [lit "/inc/other.hpp"] [] (short_named_file, lit "Core", lit "block")).
  left; reflexivity.
Defined.

Lemma test_dir_firstn argv : test_dir (firstn 5 argv) = test_dir argv.
Proof.
  unfold test_dir. rewrite length_firstn, nth_firstn. simpl (4 <? 5).
  destruct (4 <? length argv) eqn:L.
  - apply Nat.ltb_lt in L.
    replace (4 <? Nat.min 5 (length argv)) with true
      by (symmetry; apply Nat.ltb_lt; lia).
    reflexivity.
  - apply Nat.ltb_ge in L.
    replace (4 <? Nat.min 5 (length argv)) with false
      by (symmetry; apply Nat.ltb_ge; lia).
    reflexivity.
Qed.

(** X21: compare_files.py reads four arguments at most: whatever follows
    the optional test directory on the command line changes neither the
    output, nor the directories walked, nor the exit status. *)
Theorem X21_further_arguments_ignored :
  forall (fs : filesystem) (argv : list str),
    run (CompareFiles.main argv) fs = run (CompareFiles.main (firstn 5 argv)) fs.
Proof.
  intros fs argv. destruct (Nat.lt_ge_cases (length argv) 4) as [L | L].
  - rewrite firstn_all2 by lia. reflexivity.
  - rewrite !compare_files_run by (rewrite ?length_firstn; lia).
    unfold compare_files_report. rewrite test_dir_firstn, !nth_firstn.
    reflexivity.
Qed.

(** X22: the test directory is counted and nothing else: two command lines
    of compare_files.py that agree on the three directories print the same
    lines everywhere but on the fourth line, the count of test files. *)
Theorem X22_test_directory_only_counted :
  forall (fs : filesystem) (argv argv' : list str) (i : nat),
    4 <= length argv -> 4 <= length argv' ->
    firstn 4 argv = firstn 4 argv' ->
    i <> 3 ->
    nth_error (stdout (fst (run (CompareFiles.main argv) fs))) i =
    nth_error (stdout (fst (run (CompareFiles.main argv') fs))) i.
Proof.
  intros fs argv argv' i L L' E Hi.
  rewrite !compare_files_run by assumption. cbn [fst stdout].
  unfold compare_files_report.
  assert (N : forall k, k < 4 -> nth k argv [] = nth k argv' []).
  { intros k Hk. apply Nat.ltb_lt in Hk.
    pose proof (nth_firstn 4 argv k []) as A.
    pose proof (nth_firstn 4 argv' k []) as A'.
    rewrite Hk in A, A'. rewrite <- A, <- A', E. reflexivity. }
  rewrite !(N 1), !(N 2), !(N 3) by lia.
  destruct i as [|[|[|[|i]]]]; try reflexivity. contradiction.
Qed.

Lemma X22_test_directory_only_counted_witness :
  (4 <= length [lit "compare_files.py"; lit "/r"; lit "/a"; lit "/b"] /\
   4 <= length [lit "compare_files.py"; lit "/r"; lit "/a"; lit "/b"; lit "/r"] /\
   firstn 4 [lit "compare_files.py"; lit "/r"; lit "/a"; lit "/b"] =
   firstn 4 [lit "compare_files.py"; lit "/r"; lit "/a"; lit "/b"; lit "/r"] /\
   0 <> 3) /\
  nth_error (stdout (fst (run (CompareFiles.main
      [lit "compare_files.py"; lit "/r"; lit "/a"; lit "/b"]) sample_fs))) 0 =
  nth_error (stdout (fst (run (CompareFiles.main
      [lit "compare_files.py"; lit "/r"; lit "/a"; lit "/b"; lit "/r"]) sample_fs))) 0.
Proof.
  split; [repeat split; simpl; lia|].
  apply (X22_test_directory_only_counted sample_fs
           [lit "compare_files.py"; lit "/r"; lit "/a"; lit "/b"]
           [lit "compare_files.py"; lit "/r"; lit "/a"; lit "/b"; lit "/r"] 0);
    simpl; (lia || reflexivity).
Defined.

(** X23: the scan is recursive and misses nothing it can list: in a
    readable directory every entry that is not a directory and whose name
    ends with the extension is returned under the joined path, and so is
    every path returned by the scan of an entry that is a directory proper
    (no symbolic link, which the walk lists without entering). *)
Theorem X23_scan_is_recursive :
  forall (fs : filesystem) (directory extension : str)
         (entries : list (str * node)),
    fs directory = Some (Dir true entries) ->
    (forall name n, In (name, n) entries -> is_dir n = false ->
       endswith extension name = true ->
       In (join directory name) (scan fs directory extension)) /\
    (forall name readable inner p,
       In (name, Dir readable inner) entries ->
       fs (join directory name) = Some (Dir readable inner) ->
       In p (scan fs (join directory name) extension) ->
       In p (scan fs directory extension)).
Proof.
  intros fs d ext entries Hfs. unfold scan at 1 3. rewrite Hfs.
  cbn [walk_tree flat_map]. split.
  - intros name n Hin Hd He. apply in_or_app. left.
    apply in_map, filter_In. split; [|exact He].
    unfold names_where. apply in_map_iff. exists (name, n).
    split; [reflexivity|]. apply filter_In. split; [exact Hin|].
    cbn [snd]. now rewrite Hd.
  - intros name r es p Hin Hc Hp. apply in_or_app. right.
    unfold scan in Hp. rewrite Hc in Hp.
    apply in_flat_map in Hp as (it & Hit & Hp).
    apply in_flat_map. exists it. split; [|exact Hp].
    apply in_flat_map. exists (name, Dir r es). split; [exact Hin|].
    exact Hit.
Qed.

Lemma X23_scan_is_recursive_witness :
  (audit_fs (lit "/w") = Some audit_tree /\
   audit_fs (join (lit "/w") (lit "Other")) = Some other_tree /\
   In (lit "/w/Other/Util.swift")
      (scan audit_fs (join (lit "/w") (lit "Other")) (lit ".swift"))) /\
  In (lit "/w/Other/Util.swift") (scan audit_fs (lit "/w") (lit ".swift")) /\
  ~ In (lit "/w/Linked/Deep.swift") (scan audit_fs (lit "/w") (lit ".swift")).
Proof.
  split; [repeat split; left; reflexivity|]. split.
  - apply (proj2 (X23_scan_is_recursive audit_fs (lit "/w") (lit ".swift") _
                    eq_refl)
             (lit "Other") true [(lit "Util.swift", File)]).
    + right; left; reflexivity.
    + reflexivity.
    + left; reflexivity.
  - vm_compute. intros [H | [H | [H | []]]]; discriminate.
Defined.

(** X24: an empty string given as the test directory is no test directory:
    compare_files.py then runs as with the three directories alone, walks
    no fourth directory and counts no test file. *)
Theorem X24_empty_test_directory :
  forall (fs : filesystem) (argv : list str),
    4 <= length argv -> nth 4 argv [] = [] ->
    run (CompareFiles.main argv) fs =
    run (CompareFiles.main (firstn 4 argv)) fs.
Proof.
  intros fs argv L E.
  rewrite !compare_files_run by (rewrite ?length_firstn; lia).
  assert (T : test_dir argv = None).
  { unfold test_dir. rewrite E. now destruct (4 <? length argv). }
  assert (T' : test_dir (firstn 4 argv) = None).
  { unfold test_dir. rewrite length_firstn.
    replace (4 <? Nat.min 4 (length argv)) with false
      by (symmetry; apply Nat.ltb_ge; lia).
    reflexivity. }
  unfold compare_files_report. rewrite T, T', !nth_firstn. reflexivity.
Qed.

Lemma X24_empty_test_directory_witness :
  (4 <= length [lit "compare_files.py"; lit "/r"; lit "/a"; lit "/b"; []] /\
   nth 4 [lit "compare_files.py"; lit "/r"; lit "/a"; lit "/b"; []] [] = []) /\
  run (CompareFiles.main [lit "compare_files.py"; lit "/r"; lit "/a"; lit "/b"; []])
      sample_fs =
  run (CompareFiles.main
         (firstn 4 [lit "compare_files.py"; lit "/r"; lit "/a"; lit "/b"; []]))
      sample_fs.
Proof.
  split; [split; [simpl; lia | reflexivity]|].
  apply (X24_empty_test_directory sample_fs
           [lit "compare_files.py"; lit "/r"; lit "/a"; lit "/b"; []]);
    [simpl; lia | reflexivity].
Defined.
